(** * Currency converter: the rate resolver and the conversion handler of
    [backend/app.py], embedded over a model of Python's [decimal] module.

    Layout: characters and digit strings; the [Decimal] values and the
    operations of the default context that the handler uses; the
    DynamoDB table and the effect monad; [app.py] itself; the resolver
    and the predicates of the specification; sample data; then the
    lemmas of the numeric layer and the properties of the resolver and
    of the handler.  The call of the administrative writer
    [backend/test_db_connection.py] follows [app.py], and further
    properties of both files close the development. *)

From Stdlib Require Import ZArith Lia Bool List Ascii String.
From stdpp Require Import gmap strings.
Import ListNotations.

Local Open Scope Z_scope.

(* ===================================================================== *)
(** ** 1. Characters and digit strings                                   *)
(* ===================================================================== *)

(** A Rocq string stands for a Python string of ASCII characters, and the
    functions below are [str.upper], [str.isspace], [str.strip] and the
    digits of [\d] restricted to ASCII; code points above 127 are outside
    the model. *)

Definition code (c : ascii) : Z := Z.of_N (N_of_ascii c).

Definition chr (n : Z) : ascii := ascii_of_N (Z.to_N n).

Definition is_digit (c : ascii) : bool := (48 <=? code c) && (code c <=? 57).

Definition digit_val (c : ascii) : Z := code c - 48.

Definition digit_chr (d : Z) : ascii := chr (48 + d).

(** [ch.upper()] and [ch.lower()] on an ASCII character. *)
Definition upper_ascii (c : ascii) : ascii :=
  if (97 <=? code c) && (code c <=? 122) then chr (code c - 32) else c.

Definition lower_ascii (c : ascii) : ascii :=
  if (65 <=? code c) && (code c <=? 90) then chr (code c + 32) else c.

(** [s.upper()]. *)
Fixpoint upper (s : string) : string :=
  match s with
  | EmptyString => EmptyString
  | String c r => String (upper_ascii c) (upper r)
  end.

(** [len(s)]. *)
Definition len (s : string) : Z := Z.of_nat (String.length s).

(** [str.isspace] on ASCII: TAB..CR, FS..US and the blank. *)
Definition is_space (c : ascii) : bool :=
  ((9 <=? code c) && (code c <=? 13)) || ((28 <=? code c) && (code c <=? 32)).

Fixpoint lstrip (l : list ascii) : list ascii :=
  match l with
  | c :: r => if is_space c then lstrip r else l
  | [] => []
  end.

(** [s.strip()]. *)
Definition strip (l : list ascii) : list ascii := rev (lstrip (rev (lstrip l))).

(** [s.replace("_", "")]. *)
Definition drop_underscores (l : list ascii) : list ascii :=
  List.filter (fun c => negb (code c =? 95)) l.

(** [int(ds)] for a string of decimal digits ([int("")] is not used: the
    callers test for emptiness first). *)
Definition int_of_digits (ds : list ascii) : Z :=
  fold_left (fun acc c => acc * 10 + digit_val c) ds 0.

(** [str(c)] for an integer [c >= 0].  The recursion peels the last digit;
    the fuel is the bit length of [c], which bounds its number of digits. *)
Fixpoint digits_fuel (fuel : nat) (c : Z) : list ascii :=
  match fuel with
  | O => []
  | S f =>
      if c <? 10 then [digit_chr c]
      else digits_fuel f (c / 10) ++ [digit_chr (c mod 10)]
  end.

Definition digits_of (c : Z) : list ascii :=
  digits_fuel (S (Z.to_nat (Z.log2 c))) c.

(** [len(str(c))], the number of decimal digits of the coefficient. *)
Definition ndigits (c : Z) : Z := Z.of_nat (length (digits_of c)).

(** The longest prefix of digits, and what follows it. *)
Fixpoint span_digits (l : list ascii) : list ascii * list ascii :=
  match l with
  | c :: r =>
      if is_digit c then
        let (d, r') := span_digits r in (c :: d, r')
      else ([], l)
  | [] => ([], [])
  end.

(* ===================================================================== *)
(** ** 2. Decimal values and the default context                         *)
(* ===================================================================== *)

(** A finite decimal is [(-1)^dsign * dcoeff * 10^dexp] with [0 <= dcoeff];
    the three fields are [_sign], [int(_int)] and [_exp] of a Python
    [Decimal].  Equal values with different exponents are different
    decimals, as in Python (1.0 and 1.00). *)
Record dec : Type := mkdec { dsign : bool; dcoeff : Z; dexp : Z }.

(** A [Decimal]: finite, infinite, or a NaN (quiet or signaling; its sign
    and payload play no part in the operations below). *)
Inductive Decimal : Type :=
  | Fin (d : dec)
  | Inf (negative : bool)
  | NaN (signaling : bool).

(** The signals that the default context traps; a trapped signal is a
    Python exception. *)
Inductive pyexn : Type := InvalidOperation | DivisionByZero | Overflow.

Inductive res (A : Type) : Type :=
  | Ok (a : A)
  | Raise (e : pyexn).
Arguments Ok {A} a.
Arguments Raise {A} e.

(** [decimal.getcontext()] is never changed by the program:
    prec=28, rounding=ROUND_HALF_EVEN, Emin=-999999, Emax=999999, clamp=0,
    traps=[InvalidOperation, DivisionByZero, Overflow]. *)
Definition prec : Z := 28.
Definition Emax : Z := 999999.
Definition Emin : Z := -999999.
Definition Etiny : Z := Emin - prec + 1.
Definition Etop : Z := Emax - prec + 1.

(** Limits of the exact constructor [Decimal(str)]: the value has to be
    representable in the maximal context without rounding or clamping. *)
Definition MAX_PREC : Z := 999999999999999999.
Definition MAX_EMAX : Z := 999999999999999999.
Definition MIN_ETINY : Z := -1999999999999999997.

(** [d.adjusted()]: the exponent of the leading digit. *)
Definition adjusted (d : dec) : Z := ndigits (dcoeff d) + dexp d - 1.

(** No rounding and no clamping in the maximal context: the exponent of a
    zero within its bounds; for another value at most [MAX_PREC] digits,
    the adjusted exponent at most [MAX_EMAX], the exponent at least
    [MIN_ETINY]. *)
Definition exact_in_maxcontext (d : dec) : bool :=
  if dcoeff d =? 0 then (MIN_ETINY <=? dexp d) && (dexp d <=? MAX_EMAX)
  else (ndigits (dcoeff d) <=? MAX_PREC) && (adjusted d <=? MAX_EMAX)
       && (MIN_ETINY <=? dexp d).

(** *** Decimal(str) *)

(** The letter E, in either case. *)
Definition is_E (c : ascii) : bool := (code c =? 69) || (code c =? 101).

(** An optional sign in front of the rest. *)
Definition split_sign (l : list ascii) : bool * list ascii :=
  match l with
  | c :: r =>
      if code c =? 45 then (true, r)
      else if code c =? 43 then (false, r)
      else (false, l)
  | [] => (false, [])
  end.

(** [(E(?P<exp>[-+]?\d+))?\Z], positioned after the [E]. *)
Definition parse_exponent (l : list ascii) : option Z :=
  let (neg, r) := split_sign l in
  match span_digits r with
  | (d :: ds, []) =>
      Some (if neg then - int_of_digits (d :: ds) else int_of_digits (d :: ds))
  | _ => None
  end.

(** The numeric alternative: digits with an optional point (at least one
    digit in all) and an optional exponent.  The result is the pair of
    [int(intpart + fracpart)] and [exp - len(fracpart)]. *)
Definition parse_finite (l : list ascii) : option (Z * Z) :=
  let (ip, r1) := span_digits l in
  let (fp, r2) :=
    match r1 with
    | c :: r => if code c =? 46 then span_digits r else ([], r1)
    | [] => ([], r1)
    end in
  match ip ++ fp with
  | [] => None
  | ds =>
      let e :=
        match r2 with
        | [] => Some 0
        | c :: r3 => if is_E c then parse_exponent r3 else None
        end in
      match e with
      | Some e => Some (int_of_digits ds, e - Z.of_nat (length fp))
      | None => None
      end
  end.

(** The characters of a string. *)
Definition chars (s : string) : list ascii := list_ascii_of_string s.

Definition all_digits (l : list ascii) : bool := forallb is_digit l.

(** The special values, matched without regard to case:
    [Inf(inity)?] and [s?NaN\d*]. *)
Definition parse_special (neg : bool) (l : list ascii) : option Decimal :=
  let low := map lower_ascii l in
  if bool_decide (low = chars "inf") then Some (Inf neg)
  else if bool_decide (low = chars "infinity") then Some (Inf neg)
  else if bool_decide (firstn 3 low = chars "nan")
          && all_digits (skipn 3 low) then Some (NaN false)
  else if bool_decide (firstn 4 low = chars "snan")
          && all_digits (skipn 4 low) then Some (NaN true)
  else None.

(** [Decimal(s)] for a string [s]; [None] is the exception
    [InvalidOperation] (ConversionSyntax, or a value outside the limits of
    the exact constructor). *)
Definition Decimal_of_string (s : string) : option Decimal :=
  let (neg, r) := split_sign (drop_underscores (strip (chars s))) in
  match parse_finite r with
  | Some (c, e) =>
      let d := mkdec neg c e in
      if exact_in_maxcontext d then Some (Fin d) else None
  | None => parse_special neg r
  end.

(** *** str(Decimal) *)

(** ['0' * n]. *)
Definition zeros (n : Z) : list ascii := repeat (digit_chr 0) (Z.to_nat n).

(** ["%+d" % n]. *)
Definition signed_digits (n : Z) : list ascii :=
  if n <? 0 then chr 45 :: digits_of (- n) else chr 43 :: digits_of n.

(** The mantissa that [__str__] writes with [dotplace] digits of [ds] in
    front of the point. *)
Definition mantissa_chars (ds : list ascii) (dotplace : Z) : list ascii :=
  let n := Z.of_nat (length ds) in
  if dotplace <=? 0 then digit_chr 0 :: chr 46 :: zeros (- dotplace) ++ ds
  else if n <=? dotplace then ds ++ zeros (dotplace - n)
  else firstn (Z.to_nat dotplace) ds ++ chr 46 :: skipn (Z.to_nat dotplace) ds.

(** [Decimal.__str__] (scientific notation, capitals=1) on a finite
    value. *)
Definition dec_chars (d : dec) : list ascii :=
  let ds := digits_of (dcoeff d) in
  let leftdigits := dexp d + Z.of_nat (length ds) in
  let dotplace :=
    if (dexp d <=? 0) && (-6 <? leftdigits) then leftdigits else 1 in
  let e :=
    if leftdigits =? dotplace then []
    else chr 69 :: signed_digits (leftdigits - dotplace) in
  (if dsign d then [chr 45] else []) ++ mantissa_chars ds dotplace ++ e.

(** [str(x)]; the sign and the payload of a NaN are not kept. *)
Definition Decimal_str (x : Decimal) : string :=
  match x with
  | Fin d => string_of_list_ascii (dec_chars d)
  | Inf neg => if neg then "-Infinity"%string else "Infinity"%string
  | NaN sig => if sig then "sNaN"%string else "NaN"%string
  end.

(** *** Rounding *)

(** Both functions keep the digits of [c] above the last [k] and say what
    the kept part becomes.  [_round_half_up] rounds away from zero when the
    first discarded digit is 5 or more, that is when the discarded part
    is at least half of [10^k]; [_round_half_even] differs only on an
    exact half, which goes to the even neighbour. *)
Definition round_half_up (c k : Z) : Z :=
  let p := 10 ^ k in
  if p <=? 2 * (c mod p) then c / p + 1 else c / p.

Definition round_half_even (c k : Z) : Z :=
  let p := 10 ^ k in
  if (2 * (c mod p) =? p) && Z.even (c / p) then c / p
  else round_half_up c k.

(** [Decimal._fix(context)] on a finite value: round to [prec] digits
    (ROUND_HALF_EVEN), keep the exponent within the bounds of the
    context.  Overflow is trapped; Underflow, Subnormal, Inexact, Rounded
    and Clamped are not.  [digits] is the number of digits kept; when it
    is negative the value is replaced by [1] one place below [exp_min]
    before rounding, which keeps no digit and discards one. *)
Definition _fix (d : dec) : res dec :=
  if dcoeff d =? 0 then
    Ok (mkdec (dsign d) 0 (Z.min (Z.max (dexp d) Etiny) Emax))
  else
    let exp_min := ndigits (dcoeff d) + dexp d - prec in
    if Etop <? exp_min then Raise Overflow
    else
      let exp_min := Z.max exp_min Etiny in
      if dexp d <? exp_min then
        let digits := ndigits (dcoeff d) + dexp d - exp_min in
        let coeff :=
          if digits <? 0 then round_half_even 1 1
          else round_half_even (dcoeff d) (exp_min - dexp d) in
        let '(coeff, exp_min) :=
          if 10 ^ prec <=? coeff then (coeff / 10, exp_min + 1)
          else (coeff, exp_min) in
        if Etop <? exp_min then Raise Overflow
        else Ok (mkdec (dsign d) coeff exp_min)
      else Ok d.

(** The result of [_fix] as a [Decimal]. *)
Definition fix_Decimal (r : res dec) : res Decimal :=
  match r with
  | Ok d => Ok (Fin d)
  | Raise e => Raise e
  end.

(** *** Arithmetic *)

(** [x * y]. *)
Definition Decimal_mul (x y : Decimal) : res Decimal :=
  match x, y with
  | NaN true, _ | _, NaN true => Raise InvalidOperation
  | NaN false, _ | _, NaN false => Ok (NaN false)
  | Inf s, Inf t => Ok (Inf (xorb s t))
  | Inf s, Fin d | Fin d, Inf s =>
      if dcoeff d =? 0 then Raise InvalidOperation
      else Ok (Inf (xorb s (dsign d)))
  | Fin a, Fin b =>
      fix_Decimal
        (_fix (mkdec (xorb (dsign a) (dsign b)) (dcoeff a * dcoeff b)
                 (dexp a + dexp b)))
  end.

(** [while exp < ideal_exp and coeff % 10 == 0: coeff //= 10; exp += 1].
    The fuel is the number of digits of the coefficient, which is more
    than the number of its trailing zeros. *)
Fixpoint strip_zeros (fuel : nat) (coeff exp ideal : Z) : Z * Z :=
  match fuel with
  | O => (coeff, exp)
  | S f =>
      if (exp <? ideal) && (coeff mod 10 =? 0)
      then strip_zeros f (coeff / 10) (exp + 1) ideal
      else (coeff, exp)
  end.

(** The digits of the quotient of the integers [x] and [y], and their
    exponent: when the division is inexact the last digit is moved off 0
    and 5, so that [_fix] rounds as it would the exact quotient; an exact
    quotient is brought as close to the ideal exponent as its trailing
    zeros allow. *)
Definition quotient_digits (x y exp ideal : Z) : Z * Z :=
  let coeff := x / y in
  let remainder := x mod y in
  if remainder =? 0 then
    strip_zeros (Z.to_nat (ndigits coeff)) coeff exp ideal
  else (if coeff mod 5 =? 0 then coeff + 1 else coeff, exp).

(** The integers that are divided: the coefficient of the dividend
    shifted left by [shift] digits, or the one of the divisor shifted by
    [- shift]. *)
Definition align (ca cb shift : Z) : Z * Z :=
  if 0 <=? shift then (ca * 10 ^ shift, cb) else (ca, cb * 10 ^ (- shift)).

(** [Decimal.__truediv__] on two finite values, the divisor not zero,
    before [_fix]: [prec + 1] or [prec + 2] digits of the quotient. *)
Definition div_raw (a b : dec) : dec :=
  let sign := xorb (dsign a) (dsign b) in
  if dcoeff a =? 0 then mkdec sign 0 (dexp a - dexp b)
  else
    let shift := ndigits (dcoeff b) - ndigits (dcoeff a) + prec + 1 in
    let exp := dexp a - dexp b - shift in
    let '(x, y) := align (dcoeff a) (dcoeff b) shift in
    let '(coeff, exp) := quotient_digits x y exp (dexp a - dexp b) in
    mkdec sign coeff exp.

(** [x / y]. *)
Definition Decimal_div (x y : Decimal) : res Decimal :=
  match x, y with
  | NaN true, _ | _, NaN true => Raise InvalidOperation
  | NaN false, _ | _, NaN false => Ok (NaN false)
  | Inf _, Inf _ => Raise InvalidOperation
  | Inf s, Fin d => Ok (Inf (xorb s (dsign d)))
  | Fin d, Inf s => Ok (Fin (mkdec (xorb (dsign d) s) 0 Etiny))
  | Fin a, Fin b =>
      if dcoeff b =? 0 then
        if dcoeff a =? 0 then Raise InvalidOperation else Raise DivisionByZero
      else fix_Decimal (_fix (div_raw a b))
  end.

(** [x < 0]: an ordering comparison signals on any NaN. *)
Definition Decimal_lt0 (x : Decimal) : res bool :=
  match x with
  | NaN _ => Raise InvalidOperation
  | Inf s => Ok s
  | Fin d => Ok (dsign d && negb (dcoeff d =? 0))
  end.

(** [x != 0]: an equality comparison signals on a signaling NaN only. *)
Definition Decimal_ne0 (x : Decimal) : res bool :=
  match x with
  | NaN true => Raise InvalidOperation
  | NaN false => Ok true
  | Inf _ => Ok true
  | Fin d => Ok (negb (dcoeff d =? 0))
  end.

(** [d._rescale(exp, ROUND_HALF_UP)] on a finite value. *)
Definition _rescale (d : dec) (exp : Z) : dec :=
  if dcoeff d =? 0 then mkdec (dsign d) 0 exp
  else if exp <=? dexp d then
    mkdec (dsign d) (dcoeff d * 10 ^ (dexp d - exp)) exp
  else
    let digits := ndigits (dcoeff d) + dexp d - exp in
    let coeff :=
      if digits <? 0 then round_half_up 1 1
      else round_half_up (dcoeff d) (exp - dexp d) in
    mkdec (dsign d) coeff exp.

(** [x.quantize(Decimal(10) ** exp, rounding=ROUND_HALF_UP)] for a finite
    second operand of exponent [exp]. *)
Definition quantize (x : Decimal) (exp : Z) : res Decimal :=
  match x with
  | NaN true => Raise InvalidOperation
  | NaN false => Ok (NaN false)
  | Inf _ => Raise InvalidOperation
  | Fin d =>
      if negb ((Etiny <=? exp) && (exp <=? Emax)) then Raise InvalidOperation
      else if dcoeff d =? 0 then fix_Decimal (_fix (mkdec (dsign d) 0 exp))
      else if Emax <? adjusted d then Raise InvalidOperation
      else if prec <? adjusted d - exp + 1 then Raise InvalidOperation
      else
        let ans := _rescale d exp in
        if Emax <? adjusted ans then Raise InvalidOperation
        else if prec <? ndigits (dcoeff ans) then Raise InvalidOperation
        else fix_Decimal (_fix ans)
  end.

(* ===================================================================== *)
(** ** 3. The Rates table and the effects of a request                   *)
(* ===================================================================== *)

(** A DynamoDB number as the table resource hands it to Python: a finite
    [Decimal] created in the context of the DynamoDB client (prec=38,
    Emin=-128, Emax=126, with Rounded, Inexact, Clamped, Overflow and
    Underflow trapped), hence of at most 38 digits, of exponent at least
    Etiny = -165 and of adjusted exponent at most 126. *)
Definition ddb_number (d : dec) : bool :=
  (0 <=? dcoeff d) && (dcoeff d <? 10 ^ 38)
  && (-165 <=? dexp d) && (adjusted d <=? 126).

(** A number of the table: a finite decimal within those bounds. *)
Record Number : Type := mkNumber {
  num :> dec;
  num_ok : ddb_number num = true
}.

(** An item of the table, as [get_rates_for_base] documents it:
    [{ "base": ..., "rates": {"EUR": 0.9204, ...}, "asOf": ... }].  The
    key [base] indexes the table; [rates] and [asOf] may be missing from
    an item. *)
Record Item : Type := mkItem {
  item_rates : option (gmap string Number);
  item_asOf : option string
}.

(** The operations of the table resource: [get_item] is the one that
    [app.py] calls, [update_item] the one of the administrative writer;
    [scan] reads every item. *)
Inductive table_call : Type :=
  | get_item (key : string)
  | update_item (key : string)
  | scan.

(** A computation reads the table, records the calls it makes on it, and
    returns a value or raises. *)
Definition Eff (A : Type) : Type :=
  gmap string Item -> list table_call * res A.

(** Return a value, with no call. *)
Definition ret {A} (a : A) : Eff A := fun _ => ([], Ok a).

(** Sequence: the calls of both parts in their order; an exception ends
    the computation. *)
Definition bind {A B} (m : Eff A) (k : A -> Eff B) : Eff B :=
  fun table =>
    match m table with
    | (calls, Ok a) => let (calls', r) := k a table in (calls ++ calls', r)
    | (calls, Raise e) => (calls, Raise e)
    end.

(** An operation on decimals, which makes no call. *)
Definition lift {A} (r : res A) : Eff A := fun _ => ([], r).

Notation "'let*' x ':=' m 'in' k" := (bind m (fun x => k))
  (at level 10, x name, m at level 100, k at level 200).

(** [rates_table.get_item(Key={"base": key}).get("Item")]. *)
Definition table_get_item (key : string) : Eff (option Item) :=
  fun table => ([get_item key], Ok (table !! key)).

(* ===================================================================== *)
(** ** 4. backend/app.py                                                 *)
(* ===================================================================== *)

(** The arguments that [_to_dec] receives: a query-string value or a
    number read from the table. *)
Inductive pyvalue : Type :=
  | PyStr (s : string)
  | PyDecimal (d : Decimal).

(** [str(x)]. *)
Definition py_str (x : pyvalue) : string :=
  match x with
  | PyStr s => s
  | PyDecimal d => Decimal_str d
  end.

(** A JSON number of the response: [float(d)] for a Decimal [d], or the
    literal [1.0].  The conversion to binary floating point is not
    modelled; the field records the Decimal that is converted. *)
Inductive pyfloat : Type :=
  | float_of (d : Decimal)
  | float_one.

(** The values of the field [provenance]. *)
Inductive Provenance : Type := direct | cross | inverse | identity.

(** The dictionary that [compute_rate] returns. *)
Record RateInfo : Type := mkRateInfo {
  rate : Decimal;
  asOf : option string;
  provenance : Provenance;
  baseUsed : string
}.

(** The body of a 200 response. *)
Record Conversion : Type := mkConversion {
  c_from : string;
  c_to : string;
  c_amount : pyfloat;
  c_rate : pyfloat;
  c_result : pyfloat;
  c_asOf : option string;
  c_provenance : Provenance;
  c_baseUsed : option string
}.

(** The body of a response: an error with an optional hint, or a
    conversion. *)
Inductive Body : Type :=
  | ErrorBody (error : string) (hint : option string)
  | ConversionBody (c : Conversion).

Record Response : Type := mkResponse { statusCode : Z; body : Body }.

(** [event["queryStringParameters"]], missing or null or a dictionary of
    strings. *)
Record Event : Type := mkEvent {
  queryStringParameters : option (gmap string string)
}.

(** [_json(status, body)]; the constant headers and the serialization of
    the body by [json.dumps] are left out. *)
Definition _json (status : Z) (b : Body) : Response :=
  {| statusCode := status; body := b |}.

(** [Decimal(str(x))]. *)
Definition _to_dec (x : pyvalue) : res Decimal :=
  match Decimal_of_string (py_str x) with
  | Some d => Ok d
  | None => Raise InvalidOperation
  end.

(** Sequence of two operations on decimals. *)
Definition bind_res {A B} (r : res A) (k : A -> res B) : res B :=
  match r with
  | Ok a => k a
  | Raise e => Raise e
  end.

(** [float(x.quantize(Decimal("0.0001"), rounding=ROUND_HALF_UP))]. *)
Definition _round4 (x : Decimal) : res pyfloat :=
  bind_res (quantize x (-4)) (fun q => Ok (float_of q)).

(** One [get_item] with the key [base.upper()]. *)
Definition get_rates_for_base (base : string) : Eff (option Item) :=
  table_get_item (upper base).

(** [item and "rates" in item and cur in item["rates"]], with the value
    found. *)
Definition rate_in (item : option Item) (cur : string) : option Number :=
  match item with
  | Some it =>
      match item_rates it with
      | Some rates => rates !! cur
      | None => None
      end
  | None => None
  end.

(** [item.get("asOf")]. *)
Definition item_get_asOf (item : option Item) : option string :=
  match item with
  | Some it => item_asOf it
  | None => None
  end.

Section App.

(** [os.environ.get("CANONICAL_BASE", "USD")]. *)
Variable CANONICAL_BASE : string.

(** The three strategies of [compute_rate], each with its own read of
    the table; [None] lets the next one run. *)
Definition compute_direct (from_cur to_cur : string) : Eff (option RateInfo) :=
  let* item_from := get_rates_for_base from_cur in
  match rate_in item_from to_cur with
  | Some v =>
      let* rate := lift (_to_dec (PyDecimal (Fin v))) in
      ret (Some {| rate := rate; asOf := item_get_asOf item_from;
                   provenance := direct; baseUsed := from_cur |})
  | None => ret None
  end.

Definition compute_cross (from_cur to_cur : string) : Eff (option RateInfo) :=
  let* item_base := get_rates_for_base CANONICAL_BASE in
  match rate_in item_base from_cur, rate_in item_base to_cur with
  | Some vf, Some vt =>
      let* rate_to := lift (_to_dec (PyDecimal (Fin vt))) in
      let* rate_from := lift (_to_dec (PyDecimal (Fin vf))) in
      let* nonzero := lift (Decimal_ne0 rate_from) in
      if nonzero : bool then
        let* rate := lift (Decimal_div rate_to rate_from) in
        ret (Some {| rate := rate; asOf := item_get_asOf item_base;
                     provenance := cross; baseUsed := CANONICAL_BASE |})
      else ret None
  | _, _ => ret None
  end.

Definition compute_inverse (from_cur to_cur : string) : Eff (option RateInfo) :=
  let* item_to := get_rates_for_base to_cur in
  match rate_in item_to from_cur with
  | Some v =>
      let* r := lift (_to_dec (PyDecimal (Fin v))) in
      let* nonzero := lift (Decimal_ne0 r) in
      if nonzero : bool then
        let* rate := lift (Decimal_div (Fin (mkdec false 1 0)) r) in
        ret (Some {| rate := rate; asOf := item_get_asOf item_to;
                     provenance := inverse; baseUsed := to_cur |})
      else ret None
  | None => ret None
  end.

(** A strategy that returned a dictionary ends [compute_rate]. *)
Definition or_else (m k : Eff (option RateInfo)) : Eff (option RateInfo) :=
  let* r := m in
  match r with
  | Some info => ret (Some info)
  | None => k
  end.

(** [compute_rate]: direct, then cross, then inverse, then [None]. *)
Definition compute_rate (from_cur to_cur : string) : Eff (option RateInfo) :=
  let from_cur := upper from_cur in
  let to_cur := upper to_cur in
  or_else (compute_direct from_cur to_cur)
    (or_else (compute_cross from_cur to_cur)
       (or_else (compute_inverse from_cur to_cur) (ret None))).

(** The [try] block of the handler: the amount and whether it is
    negative, or the exception that [except Exception] catches. *)
Definition parse_amount (amount_raw : string) : res (Decimal * bool) :=
  bind_res (_to_dec (PyStr amount_raw)) (fun amount =>
  bind_res (Decimal_lt0 amount) (fun negative => Ok (amount, negative))).

(** Lines 122-132 of the handler: the identity conversion. *)
Definition identity_response (from_cur to_cur : string) (amount : Decimal)
  : Eff Response :=
  let* result := lift (_round4 amount) in
  ret (_json 200 (ConversionBody
         {| c_from := from_cur; c_to := to_cur;
            c_amount := float_of amount; c_rate := float_one;
            c_result := result; c_asOf := None;
            c_provenance := identity; c_baseUsed := None |})).

(** Lines 134-155 of the handler: resolution, multiplication by the
    unrounded rate, and the rounding of both displayed numbers. *)
Definition conversion_response (from_cur to_cur : string) (amount : Decimal)
  : Eff Response :=
  let* rate_info := compute_rate from_cur to_cur in
  match rate_info with
  | None =>
      ret (_json 404 (ErrorBody
        ("Cannot compute " +:+ from_cur +:+ "->" +:+ to_cur
           +:+ " from cached rates only")
        (Some ("Ensure Rates table has base='" +:+ from_cur
           +:+ "' with '" +:+ to_cur +:+ "' in rates OR base='"
           +:+ CANONICAL_BASE +:+ "' with both '" +:+ from_cur
           +:+ "' and '" +:+ to_cur +:+ "' present."))))
  | Some info =>
      let* result := lift (Decimal_mul amount (rate info)) in
      let* shown_rate := lift (quantize (rate info) (-4)) in
      let* shown_result := lift (_round4 result) in
      ret (_json 200 (ConversionBody
             {| c_from := from_cur; c_to := to_cur;
                c_amount := float_of amount;
                c_rate := float_of shown_rate;
                c_result := shown_result;
                c_asOf := asOf info;
                c_provenance := provenance info;
                c_baseUsed := Some (baseUsed info) |}))
  end.

(** [lambda_handler(event, context)].  The test of line 110 is one
    disjunction; the absent amount is matched first here because the
    later branches need its string. *)
Definition lambda_handler (event : Event) : Eff Response :=
  let qs := default ∅ (queryStringParameters event) in
  let from_cur := upper (default EmptyString (qs !! "from"%string)) in
  let to_cur := upper (default EmptyString (qs !! "to"%string)) in
  match qs !! "amount"%string with
  | None =>
      ret (_json 400 (ErrorBody "Required query params: from, to, amount" None))
  | Some amount_raw =>
      if (from_cur =? "")%string || (to_cur =? "")%string then
        ret (_json 400 (ErrorBody "Required query params: from, to, amount" None))
      else if negb (len from_cur =? 3) || negb (len to_cur =? 3) then
        ret (_json 400
               (ErrorBody "Currency codes must be 3 letters (ISO 4217)" None))
      else
        match parse_amount amount_raw with
        | Raise _ =>
            ret (_json 400 (ErrorBody "Amount must be a valid number" None))
        | Ok (_, true) =>
            ret (_json 400 (ErrorBody "Amount must be non-negative" None))
        | Ok (amount, false) =>
            if (from_cur =? to_cur)%string
            then identity_response from_cur to_cur amount
            else conversion_response from_cur to_cur amount
        end
  end.

End App.

(* ===================================================================== *)
(** ** 4b. backend/test_db_connection.py                                 *)
(* ===================================================================== *)

Module Writer.

(** The event of the writer, a dictionary in which each of [base],
    [currency] and [rate] may be absent; [base] and [currency] are strings
    (the handler calls [upper] on them), and [ev_rate] holds [str] of the
    value of [rate]. *)
Record Event : Type := mkEvent {
  ev_base : option string;
  ev_currency : option string;
  ev_rate : option string
}.

(** The arguments of the one call [table.update_item(...)]: the key
    [{"base": upd_key}], the name bound to [#cur] and the values bound to
    [:r], [:asOf] and [:now] in
    [SET rates.#cur = :r, asOf = :asOf, cachedAt = :now]. *)
Record Update : Type := mkUpdate {
  upd_key : string;
  upd_cur : string;
  upd_r : Decimal;
  upd_asOf : string;
  upd_now : Z
}.

(** Lines 23-37 of [lambda_handler(event, context)]: the call that the
    handler makes on the table, or the exception of [Decimal(str(...))]
    that precedes it.  [stamp] and [now] are what [time.strftime] and
    [int(time.time())] return; [str(0.9204)] is ["0.9204"]. *)
Definition update_request (stamp : string) (now : Z) (event : Event)
  : res Update :=
  let base := upper (default "USD"%string (ev_base event)) in
  let currency := upper (default "EUR"%string (ev_currency event)) in
  bind_res (_to_dec (PyStr (default "0.9204"%string (ev_rate event))))
    (fun rate =>
  Ok {| upd_key := base; upd_cur := currency; upd_r := rate;
        upd_asOf := stamp; upd_now := now |}).

End Writer.

(* ===================================================================== *)
(** ** 5. The resolver as the specification describes it                 *)
(* ===================================================================== *)

(** The three strategies as functions of the record that was fetched,
    for codes that are already normalized; [Ok None] is "no result". *)
Definition direct_strategy (item : option Item) (from_cur to_cur : string)
  : res (option RateInfo) :=
  match rate_in item to_cur with
  | Some v =>
      Ok (Some {| rate := Fin v; asOf := item_get_asOf item;
                  provenance := direct; baseUsed := from_cur |})
  | None => Ok None
  end.

Definition cross_strategy (canonical : string) (item : option Item)
    (from_cur to_cur : string) : res (option RateInfo) :=
  match rate_in item from_cur, rate_in item to_cur with
  | Some vf, Some vt =>
      if dcoeff vf =? 0 then Ok None
      else
        bind_res (Decimal_div (Fin vt) (Fin vf)) (fun q =>
        Ok (Some {| rate := q; asOf := item_get_asOf item;
                    provenance := cross; baseUsed := canonical |}))
  | _, _ => Ok None
  end.

Definition inverse_strategy (item : option Item) (from_cur to_cur : string)
  : res (option RateInfo) :=
  match rate_in item from_cur with
  | Some r =>
      if dcoeff r =? 0 then Ok None
      else
        bind_res (Decimal_div (Fin (mkdec false 1 0)) (Fin r)) (fun q =>
        Ok (Some {| rate := q; asOf := item_get_asOf item;
                    provenance := inverse; baseUsed := to_cur |}))
  | None => Ok None
  end.

(** [resolve(from, to)]: the strategies in their order of priority, each
    after a point lookup of its record; the first success wins. *)
Definition resolve (canonical : string) (table : gmap string Item)
    (from_cur to_cur : string) : list table_call * res (option RateInfo) :=
  match direct_strategy (table !! from_cur) from_cur to_cur with
  | Ok None =>
      match cross_strategy canonical (table !! upper canonical)
              from_cur to_cur with
      | Ok None =>
          ([get_item from_cur; get_item (upper canonical); get_item to_cur],
           inverse_strategy (table !! to_cur) from_cur to_cur)
      | r => ([get_item from_cur; get_item (upper canonical)], r)
      end
  | r => ([get_item from_cur], r)
  end.

(** The data that makes each strategy applicable, for normalized codes:
    a direct rate; both cross rates, the one of [from] not zero; the
    opposite rate, not zero. *)
Definition direct_available (table : gmap string Item)
    (from_cur to_cur : string) : Prop :=
  exists v, rate_in (table !! from_cur) to_cur = Some v.

Definition cross_available (canonical : string) (table : gmap string Item)
    (from_cur to_cur : string) : Prop :=
  exists vf vt,
    rate_in (table !! upper canonical) from_cur = Some vf /\
    rate_in (table !! upper canonical) to_cur = Some vt /\
    dcoeff vf <> 0.

Definition inverse_available (table : gmap string Item)
    (from_cur to_cur : string) : Prop :=
  exists r, rate_in (table !! to_cur) from_cur = Some r /\ dcoeff r <> 0.

(** A request that passes the validation of the handler: [from_cur] and
    [to_cur] are the upper-cased codes, of three characters each, and
    [amount] is the parsed amount, for which [amount < 0] is false. *)
Definition valid_request (event : Event) (from_cur to_cur : string)
    (amount : Decimal) : Prop :=
  exists qs raw_from raw_to raw_amount,
    queryStringParameters event = Some qs /\
    qs !! "from"%string = Some raw_from /\
    qs !! "to"%string = Some raw_to /\
    qs !! "amount"%string = Some raw_amount /\
    from_cur = upper raw_from /\ to_cur = upper raw_to /\
    len from_cur = 3 /\ len to_cur = 3 /\
    Decimal_of_string raw_amount = Some amount /\
    Decimal_lt0 amount = Ok false.

(** The number [Decimal(1)] that the inverse strategy divides. *)
Definition one : Number := mkNumber (mkdec false 1 0) eq_refl.

(** Strictly positive finite values. *)
Definition positive (x : Decimal) : Prop :=
  match x with
  | Fin d => dsign d = false /\ 0 < dcoeff d
  | _ => False
  end.

(** The two bodies that the handler builds, as functions of the values
    they are built from. *)
Definition not_found_body (canonical from_cur to_cur : string) : Body :=
  ErrorBody
    ("Cannot compute " +:+ from_cur +:+ "->" +:+ to_cur
       +:+ " from cached rates only")
    (Some ("Ensure Rates table has base='" +:+ from_cur
       +:+ "' with '" +:+ to_cur +:+ "' in rates OR base='"
       +:+ canonical +:+ "' with both '" +:+ from_cur
       +:+ "' and '" +:+ to_cur +:+ "' present.")).

Definition converted (from_cur to_cur : string) (amount : Decimal)
    (info : RateInfo) : res Response :=
  bind_res (Decimal_mul amount (rate info)) (fun result =>
  bind_res (quantize (rate info) (-4)) (fun shown_rate =>
  bind_res (quantize result (-4)) (fun shown_result =>
  Ok (_json 200 (ConversionBody
        {| c_from := from_cur; c_to := to_cur;
           c_amount := float_of amount;
           c_rate := float_of shown_rate;
           c_result := float_of shown_result;
           c_asOf := asOf info;
           c_provenance := provenance info;
           c_baseUsed := Some (baseUsed info) |}))))).

(** The replies to a malformed request, under the names that the
    specification gives them. *)
Inductive ValidationError : Type :=
  | missing_params | bad_currency_code | bad_amount | negative_amount.

Definition validation_reply (e : ValidationError) : Response :=
  _json 400 (ErrorBody
    match e with
    | missing_params => "Required query params: from, to, amount"
    | bad_currency_code => "Currency codes must be 3 letters (ISO 4217)"
    | bad_amount => "Amount must be a valid number"
    | negative_amount => "Amount must be non-negative"
    end None).

(** A call that reads one item by its key. *)
Definition point_read (c : table_call) : bool :=
  match c with
  | get_item _ => true
  | _ => false
  end.

(** The event of a request with the given query-string parameters. *)
Definition request (params : list (string * string)) : Event :=
  mkEvent (Some (list_to_map params)).

(** Round-half-up as the specification words it: [n] units of [10^exp]
    is the multiple of [10^exp] nearest to the magnitude of [d], and of two
    equally near multiples the one away from zero.  With [m] the smaller
    of the two exponents, [x] is the magnitude of [d] and [u] the unit
    [10^exp], both counted in units of [10^m]. *)
Definition half_up_at (d : dec) (exp n : Z) : Prop :=
  let m := Z.min (dexp d) exp in
  let x := dcoeff d * 10 ^ (dexp d - m) in
  let u := 10 ^ (exp - m) in
  - u < 2 * (n * u - x) <= u.





(** A displayed number is the half-up rounding of [x] to four places: the
    float of a Decimal of exponent -4, of the sign of [x], whose
    coefficient is the rounded magnitude. *)
Definition rounded4 (x : dec) (shown : pyfloat) : Prop :=
  exists q,
    shown = float_of (Fin q) /\ dsign q = dsign x /\ dexp q = -4 /\
    half_up_at x (-4) (dcoeff q).

(** Every rate stored in the table is strictly positive. *)
Definition positive_rates (table : gmap string Item) : Prop :=
  forall key cur (v : Number),
    rate_in (table !! key) cur = Some v -> positive (Fin v).

(* ===================================================================== *)
(** ** 6. Sample data                                                    *)
(* ===================================================================== *)

Module Sample.

Definition n_0_92 : Number := mkNumber (mkdec false 92 (-2)) eq_refl.
Definition n_0_79 : Number := mkNumber (mkdec false 79 (-2)) eq_refl.
Definition n_1_08 : Number := mkNumber (mkdec false 108 (-2)) eq_refl.
Definition n_1_27 : Number := mkNumber (mkdec false 127 (-2)) eq_refl.
Definition n_1_17 : Number := mkNumber (mkdec false 117 (-2)) eq_refl.
Definition n_0 : Number := mkNumber (mkdec false 0 0) eq_refl.

Definition stamp : option string := Some "2024-05-01T00:00:00Z"%string.

Definition rates_usd : gmap string Number := {[ "EUR"%string := n_0_92 ]}.
Definition item_usd : Item := mkItem (Some rates_usd) stamp.

Definition rates_eur : gmap string Number := {[ "USD"%string := n_1_08 ]}.
Definition item_eur : Item := mkItem (Some rates_eur) stamp.

Definition rates_gbp : gmap string Number :=
  <[ "USD"%string := n_1_27 ]> {[ "EUR"%string := n_1_17 ]}.
Definition item_gbp : Item := mkItem (Some rates_gbp) stamp.

(** Direct, cross (canonical base GBP) and inverse data for USD->EUR. *)
Definition table_all : gmap string Item :=
  <[ "USD"%string := item_usd ]>
    (<[ "EUR"%string := item_eur ]> {[ "GBP"%string := item_gbp ]}).

(** The example of the specification: only the record of USD, with EUR
    and GBP. *)
Definition rates_pivot : gmap string Number :=
  <[ "EUR"%string := n_0_92 ]> {[ "GBP"%string := n_0_79 ]}.
Definition item_pivot : Item := mkItem (Some rates_pivot) stamp.
Definition table_pivot : gmap string Item := {[ "USD"%string := item_pivot ]}.


(** Only the record of USD, with EUR. *)
Definition table_usd : gmap string Item := {[ "USD"%string := item_usd ]}.

(** The record of USD with the rate 0 for EUR. *)
Definition rates_null : gmap string Number := {[ "EUR"%string := n_0 ]}.
Definition item_null : Item := mkItem (Some rates_null) stamp.
Definition table_null : gmap string Item := {[ "USD"%string := item_null ]}.

Definition query (from_cur to_cur amount : string) : Event :=
  request [("from", from_cur); ("to", to_cur); ("amount", amount)]%string.

End Sample.

(* ===================================================================== *)
(** ** 6b. Further sample data                                           *)
(* ===================================================================== *)

Module Cases.

(** The record of USD with a rate of 10^24 for XAU. *)
Definition n_1e24 : Number := mkNumber (mkdec false 1 24) eq_refl.
Definition rates_big : gmap string Number := {[ "XAU"%string := n_1e24 ]}.
Definition item_big : Item := mkItem (Some rates_big) Sample.stamp.
Definition table_big : gmap string Item := {[ "USD"%string := item_big ]}.

(** [Sample.table_usd] with one more record, of JPY. *)
Definition table_more : gmap string Item :=
  <[ "JPY"%string := Sample.item_eur ]> Sample.table_usd.

(** The cross rate EUR->GBP of [Sample.table_pivot], 0.79 / 0.92 to 28
    digits, as [compute_rate] returns it. *)
Definition q_eur_gbp : dec := mkdec false 8586956521739130434782608696 (-28).
Definition info_eur_gbp : RateInfo :=
  {| rate := Fin q_eur_gbp; asOf := Sample.stamp;
     provenance := cross; baseUsed := "USD" |}.

(** The direct rate USD->EUR of [Sample.table_usd] and the body of the
    conversion of 10 USD. *)
Definition info_usd_eur : RateInfo :=
  {| rate := Fin Sample.n_0_92; asOf := Sample.stamp;
     provenance := direct; baseUsed := "USD" |}.
Definition conv_usd_eur : Conversion :=
  {| c_from := "USD"; c_to := "EUR";
     c_amount := float_of (Fin (mkdec false 10 0));
     c_rate := float_of (Fin (mkdec false 9200 (-4)));
     c_result := float_of (Fin (mkdec false 92000 (-4)));
     c_asOf := Sample.stamp; c_provenance := direct;
     c_baseUsed := Some "USD"%string |}.

(** The body of the conversion of a negative zero of USD. *)
Definition conv_zero : Conversion :=
  {| c_from := "USD"; c_to := "EUR";
     c_amount := float_of (Fin (mkdec true 0 0));
     c_rate := float_of (Fin (mkdec false 9200 (-4)));
     c_result := float_of (Fin (mkdec true 0 (-4)));
     c_asOf := Sample.stamp; c_provenance := direct;
     c_baseUsed := Some "USD"%string |}.

(** An event of the writer without [currency], and the call it makes. *)
Definition write_usd : Writer.Event :=
  {| Writer.ev_base := Some "usd"%string; Writer.ev_currency := None;
     Writer.ev_rate := Some "0.92"%string |}.
Definition update_usd : Writer.Update :=
  {| Writer.upd_key := "USD"; Writer.upd_cur := "EUR";
     Writer.upd_r := Fin (mkdec false 92 (-2));
     Writer.upd_asOf := "2024-05-01T00:00:00Z"; Writer.upd_now := 1714521600 |}.

End Cases.

(* ===================================================================== *)
(** ** 7. Auxiliary definitions of the proofs                            *)
(* ===================================================================== *)

(** A string that is empty or begins with a character that is no digit:
    what may follow a run of digits without extending it. *)
Definition starts_nondigit (l : list ascii) : Prop :=
  match l with
  | [] => True
  | c :: _ => is_digit c = false
  end.

(** The exponent part that [__str__] writes for the exponent [x]. *)
Definition exp_chars (x : Z) : list ascii :=
  if x =? 0 then [] else chr 69 :: signed_digits x.

(** The fractional part, with its point, when there is one. *)
Definition frac_chars (fp : option (list ascii)) : list ascii :=
  match fp with
  | Some f => chr 46 :: f
  | None => []
  end.

(** Characters that [strip] and [replace("_", "")] leave in place. *)
Definition plain (c : ascii) : bool := negb (is_space c) && negb (code c =? 95).

(** [default d (Some x)] and [default d None], computed. *)
Ltac norm_default :=
  repeat match goal with
  | |- context [default ?d (Some ?x)] => change (default d (Some x)) with x
  | |- context [default ?d None] => change (default d None) with d
  end.

(** A finite value has a coefficient that is not negative, as every
    [Decimal] of Python has; nothing is asked of the special values. *)
Definition nonneg_coeff (x : Decimal) : Prop :=
  match x with
  | Fin d => 0 <= dcoeff d
  | _ => True
  end.

(* ===================================================================== *)
(** ** 8. The numeric layer                                              *)
(* ===================================================================== *)

(** *** Characters and digit strings *)

Lemma code_chr n : 0 <= n < 256 -> code (chr n) = n.
Proof.
  intros H. unfold code, chr.
  rewrite N_ascii_embedding by lia. lia.
Qed.

Lemma code_range c : 0 <= code c < 256.
Proof.
  unfold code. pose proof (N_ascii_bounded c). lia.
Qed.

Lemma chr_code c : chr (code c) = c.
Proof.
  unfold code, chr. rewrite N2Z.id. apply ascii_N_embedding.
Qed.

Lemma digit_chr_is_digit d : 0 <= d < 10 -> is_digit (digit_chr d) = true.
Proof.
  intros H. unfold is_digit, digit_chr. rewrite code_chr by lia.
  apply andb_true_intro; split; apply Z.leb_le; lia.
Qed.

Lemma digit_val_chr d : 0 <= d < 10 -> digit_val (digit_chr d) = d.
Proof.
  intros H. unfold digit_val, digit_chr. rewrite code_chr by lia. lia.
Qed.

Lemma int_of_digits_acc ds : forall acc,
  fold_left (fun a c => a * 10 + digit_val c) ds acc
  = acc * 10 ^ Z.of_nat (length ds) + int_of_digits ds.
Proof.
  unfold int_of_digits.
  induction ds as [|c ds IH]; intros acc; simpl fold_left.
  - simpl. lia.
  - rewrite IH. rewrite (IH (0 * 10 + digit_val c)).
    replace (Z.of_nat (length (c :: ds))) with (1 + Z.of_nat (length ds))
      by (simpl length; lia).
    rewrite Z.pow_add_r by lia. lia.
Qed.

Lemma int_of_digits_app l1 l2 :
  int_of_digits (l1 ++ l2)
  = int_of_digits l1 * 10 ^ Z.of_nat (length l2) + int_of_digits l2.
Proof.
  unfold int_of_digits at 1. rewrite fold_left_app.
  rewrite int_of_digits_acc. reflexivity.
Qed.

Lemma int_of_digits_snoc l c :
  int_of_digits (l ++ [c]) = int_of_digits l * 10 + digit_val c.
Proof.
  rewrite int_of_digits_app. simpl length. unfold int_of_digits at 2.
  simpl. lia.
Qed.

Lemma int_of_digits_zeros k : int_of_digits (zeros k) = 0.
Proof.
  unfold zeros. induction (Z.to_nat k) as [|n IH]; [reflexivity|].
  change (repeat (digit_chr 0) (S n)) with ([digit_chr 0] ++ repeat (digit_chr 0) n).
  rewrite int_of_digits_app, IH. reflexivity.
Qed.

Lemma all_digits_app l1 l2 :
  all_digits (l1 ++ l2) = all_digits l1 && all_digits l2.
Proof. apply forallb_app. Qed.

Lemma all_digits_zeros k : all_digits (zeros k) = true.
Proof.
  unfold zeros. induction (Z.to_nat k); [reflexivity|]. simpl. exact IHn.
Qed.

(** What [str(c)] is for [c > 0]: digits only, that read back as [c], as
    many as the magnitude of [c] requires. *)
Lemma digits_fuel_spec fuel : forall c,
  0 < c < 2 ^ Z.of_nat fuel ->
  let ds := digits_fuel fuel c in
  all_digits ds = true /\ int_of_digits ds = c /\
  10 ^ (Z.of_nat (length ds) - 1) <= c < 10 ^ Z.of_nat (length ds).
Proof.
  induction fuel as [|f IH]; intros c Hc.
  - simpl in Hc. lia.
  - simpl digits_fuel. destruct (c <? 10) eqn:E.
    + apply Z.ltb_lt in E. simpl. repeat split.
      * rewrite digit_chr_is_digit by lia. reflexivity.
      * unfold int_of_digits. simpl. apply digit_val_chr. lia.
      * lia.
      * lia.
    + apply Z.ltb_ge in E.
      assert (Hq : 0 < c / 10 < 2 ^ Z.of_nat f).
      { split; [apply Z.div_str_pos; lia|].
        apply Z.div_lt_upper_bound; [lia|].
        rewrite Nat2Z.inj_succ, Z.pow_succ_r in Hc by lia. lia. }
      destruct (IH _ Hq) as (Hd & Hv & Hlo & Hhi).
      pose proof (Z.mod_pos_bound c 10 ltac:(lia)) as Hm.
      pose proof (Z.div_mod c 10 ltac:(lia)) as Hdm.
      cbv zeta. repeat split.
      * rewrite all_digits_app, Hd. simpl.
        rewrite digit_chr_is_digit by lia. reflexivity.
      * rewrite int_of_digits_snoc, Hv, digit_val_chr by lia. lia.
      * rewrite length_app. simpl length.
        replace (Z.of_nat (length (digits_fuel f (c / 10)) + 1) - 1)
          with (Z.succ (Z.of_nat (length (digits_fuel f (c / 10))) - 1)) by lia.
        rewrite Z.pow_succ_r; [lia|].
        destruct (digits_fuel f (c / 10)); simpl in *; lia.
      * rewrite length_app. simpl length.
        rewrite Nat2Z.inj_add. simpl (Z.of_nat 1).
        rewrite Z.pow_add_r by lia. lia.
Qed.

Lemma digits_of_zero : digits_of 0 = [digit_chr 0].
Proof. reflexivity. Qed.

Lemma digits_of_spec c :
  0 < c ->
  all_digits (digits_of c) = true /\ int_of_digits (digits_of c) = c /\
  10 ^ (ndigits c - 1) <= c < 10 ^ ndigits c.
Proof.
  intros Hc. unfold ndigits, digits_of.
  apply digits_fuel_spec. split; [lia|].
  rewrite Nat2Z.inj_succ, Z2Nat.id by apply Z.log2_nonneg.
  apply Z.log2_spec. lia.
Qed.

Lemma digits_of_digits c : 0 <= c -> all_digits (digits_of c) = true.
Proof.
  intros H. destruct (Z.eq_dec c 0) as [->|].
  - reflexivity.
  - apply digits_of_spec. lia.
Qed.

Lemma int_of_digits_of c : 0 <= c -> int_of_digits (digits_of c) = c.
Proof.
  intros H. destruct (Z.eq_dec c 0) as [->|].
  - reflexivity.
  - apply digits_of_spec. lia.
Qed.

Lemma ndigits_pos c : 0 <= c -> 1 <= ndigits c.
Proof.
  intros H. destruct (Z.eq_dec c 0) as [->|]; [reflexivity|].
  destruct (digits_of_spec c) as (_ & _ & Hlo & Hhi); [lia|].
  destruct (Z_lt_le_dec (ndigits c) 1) as [Hn|]; [|assumption].
  assert (ndigits c = 0) by (unfold ndigits in *; lia).
  rewrite H0 in Hhi. simpl in Hhi. lia.
Qed.

Lemma ndigits_bounds c : 0 < c -> 10 ^ (ndigits c - 1) <= c < 10 ^ ndigits c.
Proof. intros H. apply digits_of_spec, H. Qed.

(** The number of digits is determined by the magnitude. *)
Lemma ndigits_le c n : 0 <= n -> 0 < c < 10 ^ n -> ndigits c <= n.
Proof.
  intros Hn [Hc Hlt]. pose proof (ndigits_bounds c Hc) as [Hlo _].
  destruct (Z_lt_le_dec n (ndigits c)) as [Hgt|]; [|assumption].
  assert (10 ^ n <= 10 ^ (ndigits c - 1)) by (apply Z.pow_le_mono_r; lia).
  lia.
Qed.

Lemma ndigits_ge c n : 0 < c -> 10 ^ n <= c -> n + 1 <= ndigits c.
Proof.
  intros Hc Hle. pose proof (ndigits_bounds c Hc) as [_ Hhi].
  pose proof (ndigits_pos c ltac:(lia)).
  destruct (Z_lt_le_dec (ndigits c) (n + 1)) as [Hlt|]; [|assumption].
  assert (10 ^ ndigits c <= 10 ^ n) by (apply Z.pow_le_mono_r; lia).
  lia.
Qed.

(** *** Decimal(str(d)) is d *)

Lemma span_digits_app ds rest :
  all_digits ds = true -> starts_nondigit rest ->
  span_digits (ds ++ rest) = (ds, rest).
Proof.
  induction ds as [|c ds IH]; intros Hd Hr.
  - simpl. destruct rest as [|c r]; [reflexivity|].
    simpl in *. rewrite Hr. reflexivity.
  - simpl in Hd. apply andb_prop in Hd as [Hc Hd].
    simpl. rewrite Hc, (IH Hd Hr). reflexivity.
Qed.

Lemma digits_of_cons c : 0 <= c -> exists x l, digits_of c = x :: l.
Proof.
  intros H. pose proof (ndigits_pos c H) as Hn. unfold ndigits in Hn.
  destruct (digits_of c) as [|x l]; [simpl in Hn; lia|eauto].
Qed.

Lemma parse_exponent_signed x : parse_exponent (signed_digits x) = Some x.
Proof.
  unfold signed_digits, parse_exponent.
  destruct (x <? 0) eqn:E.
  - apply Z.ltb_lt in E.
    change (split_sign (chr 45 :: digits_of (- x))) with (true, digits_of (- x)).
    cbv iota beta.
    rewrite <- (app_nil_r (digits_of (- x))) at 1.
    rewrite span_digits_app by (try apply digits_of_digits; simpl; auto; lia).
    destruct (digits_of_cons (- x)) as (a & l & Hl); [lia|].
    rewrite Hl, <- Hl, int_of_digits_of by lia. f_equal. lia.
  - apply Z.ltb_ge in E.
    change (split_sign (chr 43 :: digits_of x)) with (false, digits_of x).
    cbv iota beta.
    rewrite <- (app_nil_r (digits_of x)) at 1.
    rewrite span_digits_app by (try apply digits_of_digits; simpl; auto; lia).
    destruct (digits_of_cons x) as (a & l & Hl); [lia|].
    rewrite Hl, <- Hl, int_of_digits_of by lia. reflexivity.
Qed.

Lemma exp_chars_nondigit x : starts_nondigit (exp_chars x).
Proof. unfold exp_chars. destruct (x =? 0); simpl; auto. Qed.

Lemma parse_exp_chars x :
  match exp_chars x with
  | [] => Some 0
  | c :: r3 => if is_E c then parse_exponent r3 else None
  end = Some x.
Proof.
  unfold exp_chars. destruct (x =? 0) eqn:E.
  - apply Z.eqb_eq in E. subst. reflexivity.
  - change (is_E (chr 69)) with true. cbv iota. apply parse_exponent_signed.
Qed.

(** [parse_finite] reads back every layout that [__str__] produces. *)
Lemma parse_finite_layout ip fp x :
  all_digits ip = true -> ip <> [] ->
  all_digits (default [] fp) = true ->
  parse_finite (ip ++ frac_chars fp ++ exp_chars x)
  = Some (int_of_digits (ip ++ default [] fp),
          x - Z.of_nat (length (default [] fp))).
Proof.
  intros Hip Hne Hfp. unfold parse_finite.
  rewrite span_digits_app;
    [|assumption|destruct fp; simpl; auto using exp_chars_nondigit].
  destruct fp as [f|]; simpl frac_chars; simpl default in *.
  - rewrite <- app_comm_cons. cbv iota.
    change (code (chr 46) =? 46) with true. cbv iota.
    rewrite span_digits_app by auto using exp_chars_nondigit.
    destruct ip as [|i ip]; [congruence|].
    rewrite <- app_comm_cons. cbv iota beta zeta.
    rewrite parse_exp_chars. reflexivity.
  - change ([] ++ exp_chars x) with (exp_chars x).
    assert (Hr : match exp_chars x with
                 | [] => (@nil ascii, exp_chars x)
                 | c :: r => if code c =? 46 then span_digits r
                             else ([], exp_chars x)
                 end = ([], exp_chars x)).
    { unfold exp_chars. destruct (x =? 0); reflexivity. }
    rewrite Hr. rewrite app_nil_r.
    destruct ip as [|i ip]; [congruence|].
    cbv iota beta zeta. rewrite parse_exp_chars. simpl length.
    reflexivity.
Qed.

Lemma length_zeros k : 0 <= k -> Z.of_nat (length (zeros k)) = k.
Proof. intros H. unfold zeros. rewrite repeat_length. lia. Qed.

Lemma mantissa_layout ds dotplace :
  all_digits ds = true -> ds <> [] -> dotplace <= Z.of_nat (length ds) ->
  exists ip fp,
    mantissa_chars ds dotplace = ip ++ frac_chars fp /\
    all_digits ip = true /\ ip <> [] /\
    is_digit (hd (chr 0) ip) = true /\
    all_digits (default [] fp) = true /\
    int_of_digits (ip ++ default [] fp) = int_of_digits ds /\
    Z.of_nat (length (default [] fp)) = Z.of_nat (length ds) - dotplace.
Proof.
  intros Hd Hne Hle. unfold mantissa_chars.
  destruct (dotplace <=? 0) eqn:E1; [apply Z.leb_le in E1|apply Z.leb_gt in E1].
  - exists [digit_chr 0], (Some (zeros (- dotplace) ++ ds)).
    simpl default. repeat split; try reflexivity; try discriminate.
    + rewrite all_digits_app, all_digits_zeros, Hd. reflexivity.
    + change ([digit_chr 0] ++ zeros (- dotplace) ++ ds)
        with (zeros 1 ++ zeros (- dotplace) ++ ds).
      rewrite !int_of_digits_app, !int_of_digits_zeros. lia.
    + rewrite length_app, Nat2Z.inj_add, length_zeros by lia. lia.
  - destruct (Z.of_nat (length ds) <=? dotplace) eqn:E2;
      [apply Z.leb_le in E2|apply Z.leb_gt in E2].
    + exists ds, None. simpl default. simpl frac_chars.
      replace (dotplace - Z.of_nat (length ds)) with 0 by lia.
      change (zeros 0) with (@nil ascii).
      rewrite !app_nil_r.
      repeat split; try assumption; try reflexivity.
      * destruct ds as [|a l]; [congruence|]. simpl in *.
        apply andb_prop in Hd. tauto.
      * simpl. lia.
    + exists (firstn (Z.to_nat dotplace) ds), (Some (skipn (Z.to_nat dotplace) ds)).
      simpl default. simpl frac_chars.
      pose proof Hd as Hd'.
      rewrite <- (firstn_skipn (Z.to_nat dotplace) ds), all_digits_app in Hd'.
      apply andb_prop in Hd' as [Hf Hs].
      repeat split; try assumption.
      * destruct ds as [|a l]; [congruence|].
        destruct (Z.to_nat dotplace) eqn:En; [lia|]. simpl. discriminate.
      * destruct ds as [|a l]; [congruence|].
        destruct (Z.to_nat dotplace) eqn:En; [lia|]. simpl in *.
        apply andb_prop in Hd. tauto.
      * rewrite firstn_skipn. reflexivity.
      * rewrite length_skipn. lia.
Qed.

Lemma dec_chars_layout d :
  0 <= dcoeff d ->
  exists ip fp x,
    dec_chars d
    = (if dsign d then [chr 45] else []) ++ ip ++ frac_chars fp ++ exp_chars x /\
    all_digits ip = true /\ ip <> [] /\
    is_digit (hd (chr 0) ip) = true /\
    all_digits (default [] fp) = true /\
    int_of_digits (ip ++ default [] fp) = dcoeff d /\
    x - Z.of_nat (length (default [] fp)) = dexp d.
Proof.
  intros Hc. unfold dec_chars.
  set (ds := digits_of (dcoeff d)).
  set (n := Z.of_nat (length ds)).
  set (leftdigits := dexp d + n).
  set (dotplace := if (dexp d <=? 0) && (-6 <? leftdigits) then leftdigits else 1).
  assert (Hn : 1 <= n) by (apply (ndigits_pos (dcoeff d)); assumption).
  assert (Hdot : dotplace <= n).
  { unfold dotplace. destruct (dexp d <=? 0) eqn:E; simpl; [|lia].
    apply Z.leb_le in E. destruct (-6 <? leftdigits); unfold leftdigits; lia. }
  destruct (mantissa_layout ds dotplace) as (ip & fp & Hm & H1 & H2 & H3 & H4 & H5 & H6).
  { apply digits_of_digits, Hc. }
  { intros E. unfold n in Hn. rewrite E in Hn. simpl in Hn. lia. }
  { exact Hdot. }
  exists ip, fp, (leftdigits - dotplace).
  repeat split; try assumption.
  - fold n. fold leftdigits. fold dotplace. rewrite Hm, <- app_assoc.
    do 3 f_equal. unfold exp_chars.
    destruct (leftdigits =? dotplace) eqn:E;
      [apply Z.eqb_eq in E|apply Z.eqb_neq in E].
    + replace (leftdigits - dotplace) with 0 by lia. reflexivity.
    + destruct (leftdigits - dotplace =? 0) eqn:E'; [|reflexivity].
      apply Z.eqb_eq in E'. lia.
  - rewrite H5. apply int_of_digits_of, Hc.
  - rewrite H6. unfold leftdigits. fold n. lia.
Qed.

Lemma digit_plain c : is_digit c = true -> plain c = true.
Proof.
  unfold is_digit, plain, is_space. intros H.
  apply andb_prop in H as [H1 H2]. apply Z.leb_le in H1, H2.
  repeat match goal with
  | |- context [?a <=? ?b] => destruct (Z.leb_spec a b); try lia
  | |- context [?a =? ?b] => destruct (Z.eqb_spec a b); try lia
  end; reflexivity.
Qed.

Lemma all_digits_plain l : all_digits l = true -> forallb plain l = true.
Proof.
  induction l as [|c l IH]; [reflexivity|].
  simpl. intros H. apply andb_prop in H as [H1 H2].
  rewrite (digit_plain _ H1), (IH H2). reflexivity.
Qed.

Lemma lstrip_plain l : forallb plain l = true -> lstrip l = l.
Proof.
  destruct l as [|c l]; [reflexivity|].
  simpl. intros H. apply andb_prop in H as [H _].
  unfold plain in H. apply andb_prop in H as [H _].
  destruct (is_space c); [discriminate|reflexivity].
Qed.

Lemma forallb_rev {A} (f : A -> bool) l : forallb f (rev l) = forallb f l.
Proof.
  induction l as [|a l IH]; [reflexivity|].
  simpl. rewrite forallb_app, IH. simpl. rewrite andb_true_r. apply andb_comm.
Qed.

Lemma strip_plain l : forallb plain l = true -> strip l = l.
Proof.
  intros H. unfold strip. rewrite (lstrip_plain l H).
  rewrite lstrip_plain by (rewrite forallb_rev; exact H).
  apply rev_involutive.
Qed.

Lemma drop_underscores_plain l :
  forallb plain l = true -> drop_underscores l = l.
Proof.
  unfold drop_underscores. induction l as [|c l IH]; [reflexivity|].
  simpl. intros H. apply andb_prop in H as [H1 H2].
  unfold plain in H1. apply andb_prop in H1 as [_ H1].
  rewrite H1, (IH H2). reflexivity.
Qed.

Lemma signed_digits_plain x : forallb plain (signed_digits x) = true.
Proof.
  unfold signed_digits. destruct (x <? 0) eqn:E.
  - apply Z.ltb_lt in E. simpl.
    rewrite all_digits_plain by (apply digits_of_digits; lia). reflexivity.
  - apply Z.ltb_ge in E. simpl.
    rewrite all_digits_plain by (apply digits_of_digits; lia). reflexivity.
Qed.

Lemma exp_chars_plain x : forallb plain (exp_chars x) = true.
Proof.
  unfold exp_chars. destruct (x =? 0); [reflexivity|].
  simpl. rewrite signed_digits_plain. reflexivity.
Qed.

(** The exact constructor reads [str(d)] back as [d]. *)
Lemma Decimal_of_string_str d :
  0 <= dcoeff d -> exact_in_maxcontext d = true ->
  Decimal_of_string (Decimal_str (Fin d)) = Some (Fin d).
Proof.
  intros Hc Hx. unfold Decimal_of_string, Decimal_str, chars.
  rewrite list_ascii_of_string_of_list_ascii.
  destruct (dec_chars_layout d Hc) as (ip & fp & x & -> & H1 & H2 & H3 & H4 & H5 & H6).
  assert (Hp : forallb plain (ip ++ frac_chars fp ++ exp_chars x) = true).
  { rewrite !forallb_app, all_digits_plain, exp_chars_plain by assumption.
    destruct fp as [f|]; simpl in *; [|reflexivity].
    rewrite all_digits_plain by assumption. reflexivity. }
  assert (Hs : split_sign ((if dsign d then [chr 45] else [])
                             ++ ip ++ frac_chars fp ++ exp_chars x)
               = (dsign d, ip ++ frac_chars fp ++ exp_chars x)).
  { destruct (dsign d); [reflexivity|].
    destruct ip as [|i ip]; [congruence|]. simpl in *.
    unfold is_digit in H3. apply andb_prop in H3 as [Ha Hb].
    apply Z.leb_le in Ha, Hb.
    destruct (Z.eqb_spec (code i) 45); [lia|].
    destruct (Z.eqb_spec (code i) 43); [lia|]. reflexivity. }
  assert (Hp' : forallb plain ((if dsign d then [chr 45] else [])
                                 ++ ip ++ frac_chars fp ++ exp_chars x) = true).
  { destruct (dsign d); simpl; rewrite ?Hp; reflexivity. }
  rewrite strip_plain, drop_underscores_plain, Hs by assumption.
  rewrite parse_finite_layout by assumption.
  rewrite H5, H6. destruct d as [s c e]. simpl in *. rewrite Hx. reflexivity.
Qed.

(** *** Numbers of the table *)

Lemma number_bounds (v : Number) :
  0 <= dcoeff v < 10 ^ 38 /\ -165 <= dexp v <= 126 /\
  1 <= ndigits (dcoeff v) <= 38.
Proof.
  destruct v as [d Hd]. simpl. unfold ddb_number, adjusted in Hd.
  apply andb_prop in Hd as [Hd H4]. apply andb_prop in Hd as [Hd H3].
  apply andb_prop in Hd as [H1 H2].
  apply Z.leb_le in H1, H3, H4. apply Z.ltb_lt in H2.
  pose proof (ndigits_pos (dcoeff d) H1) as Hn.
  repeat split; try lia.
  destruct (Z.eq_dec (dcoeff d) 0) as [E|E].
  - rewrite E. change (ndigits 0) with 1. lia.
  - apply ndigits_le; lia.
Qed.

Lemma number_exact (v : Number) : exact_in_maxcontext v = true.
Proof.
  pose proof (number_bounds v) as (Hc & He & Hn).
  unfold exact_in_maxcontext, adjusted, MAX_PREC, MAX_EMAX, MIN_ETINY.
  destruct (dcoeff v =? 0).
  - apply andb_true_intro; split; apply Z.leb_le; lia.
  - repeat (apply andb_true_intro; split); apply Z.leb_le; lia.
Qed.

(** A number of the table goes through [Decimal(str(x))] unchanged. *)
Lemma to_dec_number (v : Number) : _to_dec (PyDecimal (Fin v)) = Ok (Fin v).
Proof.
  unfold _to_dec, py_str.
  rewrite Decimal_of_string_str; [reflexivity| |apply number_exact].
  apply number_bounds.
Qed.

(** *** Rounding and [_fix] *)

Lemma pow10_pos k : 0 < 10 ^ k \/ k < 0.
Proof.
  destruct (Z_lt_le_dec k 0); [right; assumption|left].
  apply Z.pow_pos_nonneg; lia.
Qed.

Lemma round_half_up_bounds c k :
  0 <= c -> 0 <= k -> c / 10 ^ k <= round_half_up c k <= c / 10 ^ k + 1.
Proof.
  intros Hc Hk. unfold round_half_up.
  destruct (10 ^ k <=? 2 * (c mod 10 ^ k)); lia.
Qed.

Lemma round_half_even_bounds c k :
  0 <= c -> 0 <= k -> c / 10 ^ k <= round_half_even c k <= c / 10 ^ k + 1.
Proof.
  intros Hc Hk. unfold round_half_even.
  destruct ((2 * (c mod 10 ^ k) =? 10 ^ k) && Z.even (c / 10 ^ k)).
  - lia.
  - apply round_half_up_bounds; assumption.
Qed.

(** [_fix] on a value within the normal range of the context: no signal
    is trapped, and a non-zero value stays non-zero. *)
Lemma fix_normal d :
  0 < dcoeff d ->
  Etiny <= ndigits (dcoeff d) + dexp d - prec < Etop ->
  exists d', _fix d = Ok d' /\ dsign d' = dsign d /\ 0 < dcoeff d'.
Proof.
  intros Hc Hr. unfold _fix.
  destruct (Z.eqb_spec (dcoeff d) 0) as [E|_]; [lia|].
  destruct (Z.ltb_spec Etop (ndigits (dcoeff d) + dexp d - prec)) as [E|_]; [lia|].
  rewrite Z.max_l by lia.
  destruct (Z.ltb_spec (dexp d) (ndigits (dcoeff d) + dexp d - prec)) as [Hlt|_].
  2:{ exists d. auto. }
  destruct (Z.ltb_spec (ndigits (dcoeff d) + dexp d
                        - (ndigits (dcoeff d) + dexp d - prec)) 0) as [E|_];
    [unfold prec in E; lia|].
  set (k := ndigits (dcoeff d) + dexp d - prec - dexp d).
  assert (Hk : k = ndigits (dcoeff d) - prec) by (unfold k; lia).
  assert (Hk0 : 0 < k) by (unfold k; lia).
  pose proof (round_half_even_bounds (dcoeff d) k ltac:(lia) ltac:(lia)) as [Hlo _].
  assert (Hq : 10 ^ 27 <= dcoeff d / 10 ^ k).
  { apply Z.div_le_lower_bound; [apply Z.pow_pos_nonneg; lia|].
    rewrite <- Z.pow_add_r by lia.
    replace (k + 27) with (ndigits (dcoeff d) - 1) by (unfold prec in Hk; lia).
    apply ndigits_bounds, Hc. }
  destruct (Z.leb_spec (10 ^ prec) (round_half_even (dcoeff d) k)) as [Hbig|Hsmall].
  - destruct (Z.ltb_spec Etop (ndigits (dcoeff d) + dexp d - prec + 1)) as [E|_]; [lia|].
    eexists. split; [reflexivity|]. simpl. split; [reflexivity|].
    apply Z.div_str_pos. unfold prec in Hbig.
    assert (10 <= 10 ^ 28) by (vm_compute; discriminate). lia.
  - destruct (Z.ltb_spec Etop (ndigits (dcoeff d) + dexp d - prec)) as [E|_]; [lia|].
    eexists. split; [reflexivity|]. simpl. split; [reflexivity|].
    assert (0 < 10 ^ 27) by (vm_compute; reflexivity). lia.
Qed.

Lemma fix_zero s e : _fix (mkdec s 0 e) = Ok (mkdec s 0 (Z.min (Z.max e Etiny) Emax)).
Proof. reflexivity. Qed.

(** *** Division of numbers of the table *)

Lemma strip_zeros_spec fuel : forall coeff exp ideal,
  0 < coeff ->
  let r := strip_zeros fuel coeff exp ideal in
  0 < fst r <= coeff /\ exp <= snd r <= Z.max exp ideal /\
  fst r * 10 ^ (snd r - exp) = coeff.
Proof.
  induction fuel as [|f IH]; intros coeff exp ideal Hc; simpl.
  - rewrite Z.sub_diag. simpl. lia.
  - destruct (Z.ltb_spec exp ideal) as [Hlt|Hge]; simpl andb.
    2:{ simpl. rewrite Z.sub_diag. simpl. lia. }
    destruct (Z.eqb_spec (coeff mod 10) 0) as [Hm|Hm].
    2:{ simpl. rewrite Z.sub_diag. simpl. lia. }
    pose proof (Z.div_mod coeff 10 ltac:(lia)) as Hdm.
    assert (Hq : 0 < coeff / 10) by lia.
    destruct (IH (coeff / 10) (exp + 1) ideal Hq) as (H1 & H2 & H3).
    repeat split; try lia.
    replace (snd (strip_zeros f (coeff / 10) (exp + 1) ideal) - exp)
      with (Z.succ (snd (strip_zeros f (coeff / 10) (exp + 1) ideal) - (exp + 1)))
      by lia.
    rewrite Z.pow_succ_r by lia. lia.
Qed.

Lemma pow10_mono a b : 0 <= a <= b -> 10 ^ a <= 10 ^ b.
Proof. intros H. apply Z.pow_le_mono_r; lia. Qed.

Lemma pow10_gt0 k : 0 <= k -> 0 < 10 ^ k.
Proof. intros H. apply Z.pow_pos_nonneg; lia. Qed.

(** The operands of the integer division in [div_raw]: the dividend is
    at least the divisor, and [prec + 1] or [prec + 2] digits come out. *)
Lemma div_operands ca cb shift :
  0 < ca -> 0 < cb ->
  shift = ndigits cb - ndigits ca + prec + 1 ->
  let '(x, y) := align ca cb shift in
  0 < y /\ 10 ^ prec * y <= x /\ x < 10 ^ (prec + 2) * y.
Proof.
  intros Ha Hb Hs. unfold align.
  pose proof (ndigits_bounds ca Ha) as [Hal Hah].
  pose proof (ndigits_bounds cb Hb) as [Hbl Hbh].
  pose proof (ndigits_pos ca ltac:(lia)) as Hna.
  pose proof (ndigits_pos cb ltac:(lia)) as Hnb.
  unfold prec in *.
  destruct (Z.leb_spec 0 shift) as [H0|H0].
  - split; [assumption|].
    assert (E1 : 10 ^ (ndigits ca - 1) * 10 ^ shift = 10 ^ 28 * 10 ^ ndigits cb).
    { rewrite <- !Z.pow_add_r by lia. f_equal. lia. }
    assert (E2 : 10 ^ ndigits ca * 10 ^ shift = 10 ^ 30 * 10 ^ (ndigits cb - 1)).
    { rewrite <- !Z.pow_add_r by lia. f_equal. lia. }
    pose proof (pow10_gt0 shift H0) as Hp.
    pose proof (pow10_gt0 28 ltac:(lia)) as Hp28.
    pose proof (pow10_gt0 30 ltac:(lia)) as Hp30.
    split; nia.
  - pose proof (pow10_gt0 (- shift) ltac:(lia)) as Hp.
    split; [nia|].
    assert (E1 : 10 ^ 28 * (10 ^ ndigits cb * 10 ^ (- shift)) = 10 ^ (ndigits ca - 1)).
    { rewrite <- !Z.pow_add_r by lia. f_equal. lia. }
    assert (E2 : 10 ^ 30 * (10 ^ (ndigits cb - 1) * 10 ^ (- shift)) = 10 ^ ndigits ca).
    { rewrite <- !Z.pow_add_r by lia. f_equal. lia. }
    pose proof (pow10_gt0 28 ltac:(lia)) as Hp28.
    pose proof (pow10_gt0 30 ltac:(lia)) as Hp30.
    split; nia.
Qed.

Lemma quotient_bounds x y p q :
  0 < y -> p * y <= x -> x < q * y -> p <= x / y < q.
Proof.
  intros Hy Hl Hh. split.
  - apply Z.div_le_lower_bound; lia.
  - apply Z.div_lt_upper_bound; lia.
Qed.

(** The raw quotient of two non-zero numbers of the table. *)
Lemma div_raw_bounds (a b : Number) :
  0 < dcoeff a -> 0 < dcoeff b ->
  dsign (div_raw a b) = xorb (dsign a) (dsign b) /\
  0 < dcoeff (div_raw a b) <= 10 ^ (prec + 2) /\
  -400 <= dexp (div_raw a b) <= 400.
Proof.
  intros Ha Hb.
  pose proof (number_bounds a) as (_ & Hea & Hna).
  pose proof (number_bounds b) as (_ & Heb & Hnb).
  unfold div_raw.
  destruct (Z.eqb_spec (dcoeff a) 0) as [E|_]; [lia|].
  set (shift := ndigits (dcoeff b) - ndigits (dcoeff a) + prec + 1).
  pose proof (div_operands (dcoeff a) (dcoeff b) shift Ha Hb eq_refl) as Hop.
  destruct (align (dcoeff a) (dcoeff b) shift) as [x y].
  destruct Hop as (Hy & Hl & Hh).
  pose proof (quotient_bounds x y _ _ Hy Hl Hh) as [Hq1 Hq2].
  assert (Hp : 0 < 10 ^ prec) by (vm_compute; reflexivity).
  assert (Hs : -8 <= shift <= 66) by (unfold shift, prec; lia).
  unfold quotient_digits.
  destruct (x mod y =? 0).
  - pose proof (strip_zeros_spec (Z.to_nat (ndigits (x / y))) (x / y)
                  (dexp a - dexp b - shift) (dexp a - dexp b) ltac:(lia))
      as (H1 & H2 & _).
    destruct (strip_zeros _ _ _ _) as [c e]. simpl in *.
    repeat split; lia.
  - simpl. destruct (x / y mod 5 =? 0); repeat split; lia.
Qed.

(** Dividing a number of the table by a non-zero one raises nothing, and
    the quotient of two non-zero numbers is not zero. *)
Lemma Decimal_div_number (a b : Number) :
  dcoeff b <> 0 ->
  exists q, Decimal_div (Fin a) (Fin b) = Ok (Fin q) /\
            dsign q = xorb (dsign a) (dsign b) /\
            0 <= dcoeff q /\
            (dcoeff a <> 0 -> 0 < dcoeff q).
Proof.
  intros Hb.
  pose proof (number_bounds a) as (Hca & Hea & Hna).
  pose proof (number_bounds b) as (Hcb & Heb & Hnb).
  unfold Decimal_div.
  destruct (Z.eqb_spec (dcoeff b) 0) as [E|_]; [contradiction|].
  destruct (Z.eq_dec (dcoeff a) 0) as [Ea|Ea].
  - unfold div_raw. rewrite Ea. simpl (0 =? 0). cbv iota.
    rewrite fix_zero. eexists. split; [reflexivity|]. simpl.
    repeat split; [lia|contradiction].
  - destruct (div_raw_bounds a b) as (Hs & Hc & He); [lia|lia|].
    destruct (fix_normal (div_raw a b)) as (q & Hq & Hqs & Hqc); [lia| |].
    + assert (1 <= ndigits (dcoeff (div_raw a b)) <= prec + 3).
      { split; [apply ndigits_pos; lia|].
        apply ndigits_le; [unfold prec; lia|]. split; [lia|].
        eapply Z.le_lt_trans; [apply Hc|]. vm_compute. reflexivity. }
      unfold Etiny, Etop, Emin, Emax, prec in *. lia.
    + rewrite Hq. exists q. simpl. rewrite Hqs, Hs.
      repeat split; [lia|intros _; assumption].
Qed.

(** *** Quantization to four places *)

Lemma half_up_at_unique d exp n n' :
  half_up_at d exp n -> half_up_at d exp n' -> n = n'.
Proof.
  unfold half_up_at. cbv zeta.
  set (u := 10 ^ (exp - Z.min (dexp d) exp)).
  assert (Hu : 0 < u) by (apply pow10_gt0; lia).
  intros H1 H2. nia.
Qed.

Lemma round_half_up_spec c k :
  0 <= k -> - 10 ^ k < 2 * (round_half_up c k * 10 ^ k - c) <= 10 ^ k.
Proof.
  intros Hk. unfold round_half_up.
  pose proof (pow10_gt0 k Hk) as Hp.
  pose proof (Z.div_mod c (10 ^ k) ltac:(lia)) as Hdm.
  pose proof (Z.mod_pos_bound c (10 ^ k) Hp) as Hm.
  destruct (Z.leb_spec (10 ^ k) (2 * (c mod 10 ^ k))); nia.
Qed.

(** [_rescale] to the exponent [exp] rounds half up. *)
Lemma rescale_half_up d exp :
  0 <= dcoeff d ->
  dsign (_rescale d exp) = dsign d /\ dexp (_rescale d exp) = exp /\
  0 <= dcoeff (_rescale d exp) /\
  half_up_at d exp (dcoeff (_rescale d exp)).
Proof.
  intros Hc. unfold _rescale, half_up_at. cbv zeta.
  destruct (Z.eqb_spec (dcoeff d) 0) as [E|E].
  - simpl. rewrite E.
    pose proof (pow10_gt0 (exp - Z.min (dexp d) exp) ltac:(lia)) as Hu.
    set (u := 10 ^ (exp - Z.min (dexp d) exp)) in *.
    rewrite !Z.mul_0_l. repeat split; lia.
  - destruct (Z.leb_spec exp (dexp d)) as [Hle|Hlt]; simpl.
    + rewrite Z.min_r, Z.sub_diag by lia. change (10 ^ 0) with 1.
      pose proof (pow10_gt0 (dexp d - exp) ltac:(lia)).
      repeat split; nia.
    + rewrite Z.min_l, Z.sub_diag by lia. change (10 ^ 0) with 1.
      rewrite Z.mul_1_r.
      set (k := exp - dexp d). assert (Hk : 0 < k) by (unfold k; lia).
      destruct (Z.ltb_spec (ndigits (dcoeff d) + dexp d - exp) 0) as [Hd|Hd].
      * (* every digit is discarded, and the first one is not reached *)
        change (round_half_up 1 1) with 0.
        pose proof (ndigits_bounds (dcoeff d) ltac:(lia)) as [_ Hhi].
        pose proof (ndigits_pos (dcoeff d) Hc) as Hn.
        assert (10 * 10 ^ ndigits (dcoeff d) <= 10 ^ k).
        { rewrite <- Z.pow_succ_r by lia. apply pow10_mono. unfold k. lia. }
        repeat split; lia.
      * pose proof (round_half_up_spec (dcoeff d) k ltac:(lia)) as Hs.
        pose proof (round_half_up_bounds (dcoeff d) k Hc ltac:(lia)) as [Hlo _].
        pose proof (Z.div_pos (dcoeff d) (10 ^ k) Hc (pow10_gt0 k ltac:(lia))).
        repeat split; lia.
Qed.

Lemma fix_quantized s n exp :
  0 <= n -> ndigits n <= prec -> Etiny <= exp <= Emax - prec ->
  _fix (mkdec s n exp) = Ok (mkdec s n exp).
Proof.
  intros Hn Hd He. unfold _fix. simpl.
  destruct (Z.eqb_spec n 0) as [->|E].
  - rewrite Z.max_l, Z.min_l by (unfold Emax, prec in *; lia). reflexivity.
  - unfold Etop, Etiny, Emax, Emin, prec in *.
    destruct (Z.ltb_spec (999999 - 28 + 1) (ndigits n + exp - 28)); [lia|].
    destruct (Z.ltb_spec exp (Z.max (ndigits n + exp - 28) (-999999 - 28 + 1)));
      [lia|reflexivity].
Qed.

(** Whenever [quantize] to four places returns, it returns the value
    rescaled with ROUND_HALF_UP. *)
Lemma quantize4_value d q :
  0 <= dcoeff d -> quantize (Fin d) (-4) = Ok q -> q = Fin (_rescale d (-4)).
Proof.
  intros Hc. unfold quantize.
  change (negb ((Etiny <=? -4) && (-4 <=? Emax))) with false. cbv iota.
  destruct (Z.eqb_spec (dcoeff d) 0) as [E|E].
  - rewrite fix_zero. simpl. intros [= <-].
    unfold _rescale. rewrite E. reflexivity.
  - destruct (Emax <? adjusted d); [discriminate|].
    destruct (prec <? adjusted d - -4 + 1); [discriminate|].
    destruct (Emax <? adjusted (_rescale d (-4))); [discriminate|].
    destruct (Z.ltb_spec prec (ndigits (dcoeff (_rescale d (-4))))) as [|Hn];
      [discriminate|].
    destruct (rescale_half_up d (-4) Hc) as (Hs & He & Hc' & _).
    destruct (_rescale d (-4)) as [s n e]. simpl in *. subst e.
    rewrite fix_quantized by (unfold Etiny, Emin, Emax, prec in *; lia).
    simpl. intros [= <-]. reflexivity.
Qed.

(** [quantize] to four places returns exactly when the rounded value
    has at most [prec] digits. *)
Lemma quantize4_fits d :
  0 <= dcoeff d -> dcoeff (_rescale d (-4)) < 10 ^ prec ->
  quantize (Fin d) (-4) = Ok (Fin (_rescale d (-4))).
Proof.
  intros Hc Hfit. unfold quantize.
  change (negb ((Etiny <=? -4) && (-4 <=? Emax))) with false. cbv iota.
  destruct (Z.eqb_spec (dcoeff d) 0) as [E|E].
  - rewrite fix_zero. unfold _rescale. rewrite E. reflexivity.
  - pose proof (ndigits_bounds (dcoeff d) ltac:(lia)) as [Hlo Hhi].
    pose proof (ndigits_pos (dcoeff d) Hc) as Hn.
    destruct (rescale_half_up d (-4) Hc) as (Hs & He & Hc' & _).
    assert (Hadj : ndigits (dcoeff d) + dexp d <= 24).
    { destruct (Z_le_gt_dec (ndigits (dcoeff d) + dexp d) 24) as [|Hgt];
        [assumption|exfalso].
      unfold _rescale in Hfit.
      destruct (Z.eqb_spec (dcoeff d) 0); [lia|].
      unfold prec in Hfit.
      destruct (Z.leb_spec (-4) (dexp d)) as [Hle|Hlt]; simpl in Hfit.
      - assert (10 ^ 28 <= 10 ^ (ndigits (dcoeff d) - 1) * 10 ^ (dexp d - -4)).
        { rewrite <- Z.pow_add_r by lia. apply pow10_mono. lia. }
        pose proof (pow10_gt0 (dexp d - -4) ltac:(lia)). nia.
      - destruct (Z.ltb_spec (ndigits (dcoeff d) + dexp d - -4) 0); [lia|].
        pose proof (round_half_up_bounds (dcoeff d) (-4 - dexp d) Hc ltac:(lia))
          as [Hl _].
        assert (10 ^ 28 <= dcoeff d / 10 ^ (-4 - dexp d)).
        { apply Z.div_le_lower_bound; [apply pow10_gt0; lia|].
          rewrite <- Z.pow_add_r by lia.
          etransitivity; [|apply Hlo]. apply pow10_mono. lia. }
        lia. }
    unfold adjusted. rewrite He.
    assert (Hn' : ndigits (dcoeff (_rescale d (-4))) <= prec).
    { destruct (Z.eq_dec (dcoeff (_rescale d (-4))) 0) as [E0|E0].
      - rewrite E0. vm_compute. discriminate.
      - apply ndigits_le; [unfold prec; lia|lia]. }
    pose proof (ndigits_pos _ Hc') as Hn1.
    unfold Emax, prec in *.
    destruct (Z.ltb_spec 999999 (ndigits (dcoeff d) + dexp d - 1)); [lia|].
    destruct (Z.ltb_spec 28 (ndigits (dcoeff d) + dexp d - 1 - -4 + 1)); [lia|].
    destruct (Z.ltb_spec 999999 (ndigits (dcoeff (_rescale d (-4))) + -4 - 1)); [lia|].
    destruct (Z.ltb_spec 28 (ndigits (dcoeff (_rescale d (-4))))); [lia|].
    destruct (_rescale d (-4)) as [s n e]. simpl in *. subst e.
    rewrite fix_quantized by (unfold Etiny, Emin, Emax, prec in *; lia).
    reflexivity.
Qed.

(** *** Coefficients stay non-negative *)

Lemma span_digits_digits l :
  all_digits (fst (span_digits l)) = true.
Proof.
  induction l as [|c l IH]; [reflexivity|].
  simpl. destruct (is_digit c) eqn:E; [|reflexivity].
  destruct (span_digits l) as [d r]. simpl in *. rewrite E, IH. reflexivity.
Qed.

Lemma int_of_digits_nonneg ds : all_digits ds = true -> 0 <= int_of_digits ds.
Proof.
  induction ds as [|c ds IH] using rev_ind; [intros _; unfold int_of_digits; simpl; lia|].
  rewrite all_digits_app, int_of_digits_snoc. simpl. intros H.
  apply andb_prop in H as [H1 H2]. rewrite andb_true_r in H2.
  unfold is_digit in H2. apply andb_prop in H2 as [H2 _]. apply Z.leb_le in H2.
  specialize (IH H1). unfold digit_val. lia.
Qed.

Lemma parse_finite_nonneg l c e : parse_finite l = Some (c, e) -> 0 <= c.
Proof.
  unfold parse_finite.
  pose proof (span_digits_digits l) as H1.
  destruct (span_digits l) as [ip r1]. simpl in H1.
  assert (H2 : all_digits (fst (match r1 with
                                | [] => ([], r1)
                                | c :: r => if code c =? 46 then span_digits r
                                            else ([], r1)
                                end)) = true).
  { destruct r1 as [|x r]; [reflexivity|].
    destruct (code x =? 46); [apply span_digits_digits|reflexivity]. }
  destruct (match r1 with
            | [] => ([], r1)
            | c :: r => if code c =? 46 then span_digits r else ([], r1)
            end) as [fp r2]. simpl in H2.
  assert (H3 : 0 <= int_of_digits (ip ++ fp)).
  { apply int_of_digits_nonneg. rewrite all_digits_app, H1, H2. reflexivity. }
  destruct (ip ++ fp) as [|a l0]; [discriminate|].
  destruct (match r2 with
            | [] => Some 0
            | c0 :: r3 => if is_E c0 then parse_exponent r3 else None
            end); [|discriminate].
  intros [= <- _]. exact H3.
Qed.

Lemma parse_special_not_finite neg l d : parse_special neg l <> Some (Fin d).
Proof.
  unfold parse_special.
  repeat match goal with
  | |- context [if ?b then _ else _] => destruct b
  end; discriminate.
Qed.

Lemma Decimal_of_string_nonneg s d :
  Decimal_of_string s = Some (Fin d) -> 0 <= dcoeff d.
Proof.
  unfold Decimal_of_string.
  destruct (split_sign _) as [neg r].
  destruct (parse_finite r) as [[c e]|] eqn:E.
  - destruct (exact_in_maxcontext _); [|discriminate].
    intros [= <-]. simpl. eapply parse_finite_nonneg, E.
  - intros H. exfalso. eapply parse_special_not_finite, H.
Qed.

Lemma fix_nonneg d d' : 0 <= dcoeff d -> _fix d = Ok d' -> 0 <= dcoeff d'.
Proof.
  intros Hc. unfold _fix.
  destruct (dcoeff d =? 0); [intros [= <-]; simpl; lia|].
  destruct (Etop <? _); [discriminate|].
  destruct (dexp d <? _); [|intros [= <-]; assumption].
  set (coeff := if _ <? 0 then round_half_even 1 1 else round_half_even _ _).
  assert (H0 : 0 <= coeff).
  { unfold coeff. destruct (_ <? 0); [vm_compute; discriminate|].
    match goal with |- 0 <= round_half_even ?c ?k =>
      destruct (Z_lt_le_dec k 0) as [Hk|Hk] end.
    - unfold round_half_even, round_half_up.
      rewrite (Z.pow_neg_r 10 _ Hk), Z.div_0_r, Z.mod_0_r.
      repeat match goal with
      | |- context [if ?b then _ else _] => destruct b
      end; lia.
    - etransitivity; [|apply round_half_even_bounds; assumption].
      apply Z.div_pos; [assumption|apply pow10_gt0, Hk]. }
  destruct (10 ^ prec <=? coeff).
  - destruct (Etop <? _); [discriminate|]. intros [= <-]. simpl.
    apply Z.div_pos; lia.
  - destruct (Etop <? _); [discriminate|]. intros [= <-]. simpl. exact H0.
Qed.

Lemma Decimal_mul_finite a b x :
  0 <= dcoeff a -> 0 <= dcoeff b ->
  Decimal_mul (Fin a) (Fin b) = Ok x ->
  exists d, x = Fin d /\ 0 <= dcoeff d.
Proof.
  intros Ha Hb. unfold Decimal_mul, fix_Decimal.
  destruct (_fix _) as [d|e] eqn:E; [|discriminate].
  intros [= <-]. exists d. split; [reflexivity|].
  eapply fix_nonneg; [|exact E]. simpl. nia.
Qed.

(** *** Strings *)

Lemma upper_ascii_idem c : upper_ascii (upper_ascii c) = upper_ascii c.
Proof.
  unfold upper_ascii.
  destruct ((97 <=? code c) && (code c <=? 122)) eqn:E.
  - apply andb_prop in E as [E1 E2]. apply Z.leb_le in E1, E2.
    rewrite code_chr by lia.
    destruct (Z.leb_spec 97 (code c - 32)); [lia|reflexivity].
  - rewrite E. reflexivity.
Qed.

Lemma upper_idem s : upper (upper s) = upper s.
Proof.
  induction s as [|c s IH]; [reflexivity|].
  simpl. rewrite upper_ascii_idem, IH. reflexivity.
Qed.

Lemma len_upper s : len (upper s) = len s.
Proof.
  unfold len. f_equal. induction s as [|c s IH]; [reflexivity|].
  simpl. rewrite IH. reflexivity.
Qed.

(** *** The quotient of the context is the nearest decimal *)










(* ===================================================================== *)
(** ** 9. The resolver                                                   *)
(* ===================================================================== *)

Lemma bind_lift {A B} (r : res A) (k : A -> Eff B) table :
  bind (lift r) k table
  = match r with
    | Ok a => k a table
    | Raise e => ([], Raise e)
    end.
Proof.
  unfold bind, lift. destruct r; [|reflexivity].
  destruct (k a table). reflexivity.
Qed.

Lemma bind_ret {A B} (a : A) (k : A -> Eff B) table :
  bind (ret a) k table = k a table.
Proof. unfold bind, ret. destruct (k a table). reflexivity. Qed.

Lemma bind_get_item {B} key (k : option Item -> Eff B) table :
  bind (get_rates_for_base key) k table
  = let (calls, r) := k (table !! upper key) table in
    (get_item (upper key) :: calls, r).
Proof. reflexivity. Qed.

Section Resolver.

Variable CANONICAL_BASE : string.
Variable table : gmap string Item.

Lemma compute_direct_run f t :
  compute_direct f t table
  = ([get_item (upper f)], direct_strategy (table !! upper f) f t).
Proof.
  unfold compute_direct, direct_strategy. rewrite bind_get_item.
  destruct (rate_in (table !! upper f) t) as [v|]; [|reflexivity].
  rewrite bind_lift, to_dec_number. reflexivity.
Qed.

Lemma compute_cross_run f t :
  compute_cross CANONICAL_BASE f t table
  = ([get_item (upper CANONICAL_BASE)],
     cross_strategy CANONICAL_BASE (table !! upper CANONICAL_BASE) f t).
Proof.
  unfold compute_cross, cross_strategy. rewrite bind_get_item.
  destruct (rate_in (table !! upper CANONICAL_BASE) f) as [vf|]; [|reflexivity].
  destruct (rate_in (table !! upper CANONICAL_BASE) t) as [vt|]; [|reflexivity].
  rewrite bind_lift, to_dec_number, bind_lift, to_dec_number, bind_lift.
  simpl Decimal_ne0. cbv iota.
  destruct (dcoeff vf =? 0); cbn [negb]; [reflexivity|].
  rewrite bind_lift.
  destruct (Decimal_div (Fin vt) (Fin vf)); reflexivity.
Qed.

Lemma compute_inverse_run f t :
  compute_inverse f t table
  = ([get_item (upper t)], inverse_strategy (table !! upper t) f t).
Proof.
  unfold compute_inverse, inverse_strategy. rewrite bind_get_item.
  destruct (rate_in (table !! upper t) f) as [r|]; [|reflexivity].
  rewrite bind_lift, to_dec_number, bind_lift.
  simpl Decimal_ne0. cbv iota.
  destruct (dcoeff r =? 0); cbn [negb]; [reflexivity|].
  rewrite bind_lift.
  destruct (Decimal_div (Fin (mkdec false 1 0)) (Fin r)); reflexivity.
Qed.

(** [compute_rate] is the resolver of the specification on the
    upper-cased codes. *)
Lemma compute_rate_resolve f t :
  compute_rate CANONICAL_BASE f t table
  = resolve CANONICAL_BASE table (upper f) (upper t).
Proof.
  unfold compute_rate, resolve, or_else, bind.
  rewrite compute_direct_run, upper_idem.
  destruct (direct_strategy _ _ _) as [[info|]|e]; try reflexivity.
  rewrite compute_cross_run.
  destruct (cross_strategy _ _ _ _) as [[info|]|e]; try reflexivity.
  rewrite compute_inverse_run, upper_idem.
  destruct (inverse_strategy _ _ _) as [[info|]|e]; reflexivity.
Qed.

End Resolver.

(** The strategies raise nothing on the numbers of the table. *)
Lemma cross_strategy_total canonical item f t :
  exists r, cross_strategy canonical item f t = Ok r.
Proof.
  unfold cross_strategy.
  destruct (rate_in item f) as [vf|]; [|eauto].
  destruct (rate_in item t) as [vt|]; [|eauto].
  destruct (Z.eqb_spec (dcoeff vf) 0) as [|Hf]; [eauto|].
  destruct (Decimal_div_number vt vf Hf) as (q & -> & _). simpl. eauto.
Qed.

Lemma inverse_strategy_total item f t :
  exists r, inverse_strategy item f t = Ok r.
Proof.
  unfold inverse_strategy.
  destruct (rate_in item f) as [r|]; [|eauto].
  destruct (Z.eqb_spec (dcoeff r) 0) as [|Hr]; [eauto|].
  destruct (Decimal_div_number one r Hr) as (q & Hq & _).
  change (Fin one) with (Fin (mkdec false 1 0)) in Hq. rewrite Hq.
  simpl. eauto.
Qed.

Lemma cross_unavailable canonical table f t :
  ~ cross_available canonical table f t ->
  cross_strategy canonical (table !! upper canonical) f t = Ok None.
Proof.
  intros Hn. unfold cross_strategy.
  destruct (rate_in _ f) as [vf|] eqn:Ef; [|reflexivity].
  destruct (rate_in _ t) as [vt|] eqn:Et; [|reflexivity].
  destruct (Z.eqb_spec (dcoeff vf) 0) as [|Hf]; [reflexivity|].
  exfalso. apply Hn. exists vf, vt. auto.
Qed.

Lemma rate_in_lookup (table : gmap string Item) key item rates cur :
  table !! key = Some item -> item_rates item = Some rates ->
  rate_in (table !! key) cur = rates !! cur.
Proof. intros -> H. simpl. rewrite H. reflexivity. Qed.

(* ===================================================================== *)
(** ** 10. Properties of the resolver                                    *)
(* ===================================================================== *)

(** C1. Direct precedence: when the record of base [from] holds a rate
    for [to], [compute_rate] reads that record only and returns the stored
    rate unchanged, with provenance [direct], [baseUsed = from] and the
    [asOf] of the record, whatever the other records of the table are. *)
Theorem direct_precedence (CANONICAL_BASE : string)
    (table : gmap string Item) (from_cur to_cur : string)
    (item : Item) (rates : gmap string Number) (v : Number) :
  upper from_cur = from_cur -> upper to_cur = to_cur ->
  table !! from_cur = Some item ->
  item_rates item = Some rates ->
  rates !! to_cur = Some v ->
  compute_rate CANONICAL_BASE from_cur to_cur table
  = ([get_item from_cur],
     Ok (Some {| rate := Fin v; asOf := item_asOf item;
                 provenance := direct; baseUsed := from_cur |})).
Proof.
  intros Hf Ht Hitem Hrates Hv.
  rewrite compute_rate_resolve, Hf, Ht. unfold resolve, direct_strategy.
  rewrite (rate_in_lookup _ _ _ _ _ Hitem Hrates), Hv, Hitem. reflexivity.
Qed.



(* ===================================================================== *)
(** ** 11. The handler                                                   *)
(* ===================================================================== *)

Lemma identity_response_run f t a table :
  identity_response f t a table
  = ([], bind_res (quantize a (-4)) (fun q =>
         Ok (_json 200 (ConversionBody
               {| c_from := f; c_to := t;
                  c_amount := float_of a; c_rate := float_one;
                  c_result := float_of q; c_asOf := None;
                  c_provenance := identity; c_baseUsed := None |})))).
Proof.
  unfold identity_response, _round4. rewrite bind_lift.
  destruct (quantize a (-4)); reflexivity.
Qed.

Lemma conversion_response_run canonical f t a table :
  conversion_response canonical f t a table
  = match resolve canonical table (upper f) (upper t) with
    | (calls, Ok (Some info)) => (calls, converted f t a info)
    | (calls, Ok None) => (calls, Ok (_json 404 (not_found_body canonical f t)))
    | (calls, Raise e) => (calls, Raise e)
    end.
Proof.
  unfold conversion_response, bind at 1. rewrite compute_rate_resolve.
  destruct (resolve canonical table (upper f) (upper t))
    as [calls [[info|]|e]]; try reflexivity.
  - rewrite bind_lift. unfold converted.
    destruct (Decimal_mul a (rate info)) as [x|e]; simpl;
      [|rewrite app_nil_r; reflexivity].
    rewrite bind_lift.
    destruct (quantize (rate info) (-4)) as [q|e]; simpl;
      [|rewrite app_nil_r; reflexivity].
    rewrite bind_lift. unfold _round4.
    destruct (quantize x (-4)) as [qx|e]; simpl; rewrite app_nil_r; reflexivity.
  - simpl. rewrite app_nil_r. reflexivity.
Qed.

Lemma len_empty s : len s = 3 -> (s =? "")%string = false.
Proof.
  intros H. destruct (String.eqb_spec s "") as [->|]; [discriminate|reflexivity].
Qed.

(** A valid request reaches one of the two conversion branches. *)
Lemma lambda_handler_valid canonical table event f t a :
  valid_request event f t a ->
  lambda_handler canonical event table
  = if (f =? t)%string then identity_response f t a table
    else conversion_response canonical f t a table.
Proof.
  intros (qs & rf & rt & ra & Hq & Hf & Ht & Ha & -> & -> & Hlf & Hlt & Hp & Hn).
  unfold lambda_handler. rewrite Hq. norm_default. rewrite Hf, Ht, Ha.
  norm_default. rewrite (len_empty _ Hlf), (len_empty _ Hlt), Hlf, Hlt.
  simpl. unfold parse_amount, _to_dec.
  change (py_str (PyStr ra)) with ra. rewrite Hp. simpl.
  rewrite Hn. simpl. destruct (upper rf =? upper rt)%string; reflexivity.
Qed.

(** Every request is either answered by a validation error, without any
    call on the table, or valid. *)
Lemma lambda_handler_cases canonical table event :
  (exists e, lambda_handler canonical event table = ([], Ok (validation_reply e)))
  \/ exists f t a, valid_request event f t a.
Proof.
  unfold lambda_handler.
  destruct (queryStringParameters event) as [qs|] eqn:Hq; norm_default.
  2:{ left. exists missing_params. reflexivity. }
  destruct (qs !! "amount"%string) as [ra|] eqn:Ha.
  2:{ left. exists missing_params. reflexivity. }
  destruct (qs !! "from"%string) as [rf|] eqn:Hf; norm_default.
  2:{ left. exists missing_params. reflexivity. }
  destruct (qs !! "to"%string) as [rt|] eqn:Ht; norm_default.
  2:{ left. exists missing_params. simpl. rewrite orb_true_r. reflexivity. }
  destruct ((upper rf =? "")%string || (upper rt =? "")%string).
  { left. exists missing_params. reflexivity. }
  destruct (Z.eqb_spec (len (upper rf)) 3) as [Hlf|]; simpl.
  2:{ left. exists bad_currency_code. reflexivity. }
  destruct (Z.eqb_spec (len (upper rt)) 3) as [Hlt|]; simpl.
  2:{ left. exists bad_currency_code. reflexivity. }
  unfold parse_amount, _to_dec. change (py_str (PyStr ra)) with ra.
  destruct (Decimal_of_string ra) as [a|] eqn:Hp; simpl.
  2:{ left. exists bad_amount. reflexivity. }
  destruct (Decimal_lt0 a) as [[|]|] eqn:Hn; simpl.
  - left. exists negative_amount. reflexivity.
  - right. exists (upper rf), (upper rt), a, qs, rf, rt, ra. auto 12.
  - left. exists bad_amount. reflexivity.
Qed.

Lemma valid_request_upper event f t a :
  valid_request event f t a -> upper f = f /\ upper t = t.
Proof.
  intros (qs & rf & rt & ra & _ & _ & _ & _ & -> & -> & _).
  split; apply upper_idem.
Qed.

Lemma direct_unavailable table f t :
  ~ direct_available table f t ->
  direct_strategy (table !! f) f t = Ok None.
Proof.
  intros Hn. unfold direct_strategy.
  destruct (rate_in (table !! f) t) as [v|] eqn:E; [|reflexivity].
  exfalso. apply Hn. exists v. exact E.
Qed.

Lemma inverse_unavailable table f t :
  ~ inverse_available table f t ->
  inverse_strategy (table !! t) f t = Ok None.
Proof.
  intros Hn. unfold inverse_strategy.
  destruct (rate_in (table !! t) f) as [r|] eqn:E; [|reflexivity].
  destruct (Z.eqb_spec (dcoeff r) 0) as [|Hr]; [reflexivity|].
  exfalso. apply Hn. exists r. auto.
Qed.

(** C4. Unavailability: a valid request between two different codes for
    which the table has no direct rate, no usable pair of cross rates
    and no usable opposite rate is answered 404 with the error and its
    hint, after the three reads; no 200 response is built. *)
Theorem unavailable_not_found (CANONICAL_BASE : string)
    (table : gmap string Item) (event : Event)
    (from_cur to_cur : string) (amount : Decimal) :
  valid_request event from_cur to_cur amount ->
  from_cur <> to_cur ->
  ~ direct_available table from_cur to_cur ->
  ~ cross_available CANONICAL_BASE table from_cur to_cur ->
  ~ inverse_available table from_cur to_cur ->
  lambda_handler CANONICAL_BASE event table
  = ([get_item from_cur; get_item (upper CANONICAL_BASE); get_item to_cur],
     Ok (_json 404 (not_found_body CANONICAL_BASE from_cur to_cur))).
Proof.
  intros Hv Hne Hd Hc Hi.
  destruct (valid_request_upper _ _ _ _ Hv) as [Hf Ht].
  rewrite (lambda_handler_valid _ _ _ _ _ _ Hv).
  destruct (String.eqb_spec from_cur to_cur) as [|_]; [contradiction|].
  rewrite conversion_response_run, Hf, Ht. unfold resolve.
  rewrite (direct_unavailable _ _ _ Hd), (cross_unavailable _ _ _ _ Hc),
    (inverse_unavailable _ _ _ Hi).
  reflexivity.
Qed.

(** C5 (amended). Identity: for a valid request with equal codes and a
    finite amount whose half-up rounding to four places is [n] units of
    [10^-4] with [n] below [10^28], the handler makes no call on the
    table and answers 200 with the literal rate 1.0, the result [n] at
    exponent -4 with the sign of the amount, provenance [identity] and
    no [asOf]. *)
Theorem identity_conversion (CANONICAL_BASE : string)
    (table : gmap string Item) (event : Event)
    (cur : string) (amount : dec) (n : Z) :
  valid_request event cur cur (Fin amount) ->
  half_up_at amount (-4) n ->
  n < 10 ^ 28 ->
  lambda_handler CANONICAL_BASE event table
  = ([],
     Ok (_json 200 (ConversionBody
           {| c_from := cur; c_to := cur;
              c_amount := float_of (Fin amount);
              c_rate := float_one;
              c_result := float_of (Fin (mkdec (dsign amount) n (-4)));
              c_asOf := None;
              c_provenance := identity;
              c_baseUsed := None |}))).
Proof.
  intros Hv Hn Hfit.
  assert (Hc : 0 <= dcoeff amount).
  { destruct Hv as (qs & rf & rt & ra & _ & _ & _ & _ & _ & _ & _ & _ & Hp & _).
    eapply Decimal_of_string_nonneg, Hp. }
  rewrite (lambda_handler_valid _ _ _ _ _ _ Hv), String.eqb_refl.
  rewrite identity_response_run.
  destruct (rescale_half_up amount (-4) Hc) as (Hs & He & _ & Hh).
  pose proof (half_up_at_unique _ _ _ _ Hh Hn) as Hcoef.
  rewrite quantize4_fits by (unfold prec; lia || assumption).
  simpl. destruct (_rescale amount (-4)) as [s c e]. simpl in *. subst.
  reflexivity.
Qed.

Lemma converted_status f t a info resp :
  converted f t a info = Ok resp -> statusCode resp = 200.
Proof.
  unfold converted, bind_res.
  destruct (Decimal_mul a (rate info)); [|discriminate].
  destruct (quantize (rate info) (-4)); [|discriminate].
  destruct (quantize _ (-4)); [|discriminate].
  intros [= <-]. reflexivity.
Qed.

(** A response of status 400 is a validation error, and the table has
    not been called. *)
Lemma status_400_no_call canonical table event calls resp :
  lambda_handler canonical event table = (calls, Ok resp) ->
  statusCode resp = 400 -> calls = [].
Proof.
  intros H Hs.
  destruct (lambda_handler_cases canonical table event)
    as [[e He]|(f & t & a & Hv)].
  - rewrite He in H. congruence.
  - rewrite (lambda_handler_valid _ _ _ _ _ _ Hv) in H.
    destruct (f =? t)%string.
    + rewrite identity_response_run in H. congruence.
    + rewrite conversion_response_run in H.
      destruct (resolve canonical table (upper f) (upper t))
        as [calls' [[info|]|e]].
      * injection H as <- H. apply converted_status in H. lia.
      * injection H as <- <-. simpl in Hs. lia.
      * discriminate.
Qed.

(** C6. Validation, in the order of the checks: a missing or empty
    [from] or [to] or an absent [amount] is answered [missing_params];
    otherwise a code that has not three characters, [bad_currency_code];
    otherwise an amount that [Decimal] does not parse, [bad_amount];
    otherwise a parsed amount below zero, [negative_amount]; and a 400
    response comes with no call on the table. *)
Theorem validation_errors (CANONICAL_BASE : string)
    (table : gmap string Item) (event : Event) :
  let qs := default ∅ (queryStringParameters event) in
  let from_cur := upper (default EmptyString (qs !! "from"%string)) in
  let to_cur := upper (default EmptyString (qs !! "to"%string)) in
  let reply e :=
    lambda_handler CANONICAL_BASE event table = ([], Ok (validation_reply e)) in
  (from_cur = EmptyString \/ to_cur = EmptyString
   \/ qs !! "amount"%string = None ->
   reply missing_params)
  /\
  (forall raw,
     from_cur <> EmptyString -> to_cur <> EmptyString ->
     qs !! "amount"%string = Some raw ->
     (len from_cur <> 3 \/ len to_cur <> 3 -> reply bad_currency_code)
     /\
     (len from_cur = 3 -> len to_cur = 3 ->
      (Decimal_of_string raw = None -> reply bad_amount)
      /\
      (forall a, Decimal_of_string raw = Some a ->
                 Decimal_lt0 a = Ok true -> reply negative_amount)))
  /\
  (forall calls resp,
     lambda_handler CANONICAL_BASE event table = (calls, Ok resp) ->
     statusCode resp = 400 -> calls = []).
Proof.
  cbv zeta. split; [|split].
  - intros H. unfold lambda_handler.
    destruct (default ∅ (queryStringParameters event) !! "amount"%string)
      as [raw|]; [|reflexivity].
    destruct H as [H|[H|H]]; [| |discriminate]; rewrite H.
    + reflexivity.
    + rewrite orb_true_r. reflexivity.
  - intros raw Hf Ht Ha. unfold lambda_handler. rewrite Ha.
    destruct (String.eqb_spec
                (upper (default EmptyString
                   (default ∅ (queryStringParameters event) !! "from"%string)))
                "") as [|_]; [contradiction|].
    destruct (String.eqb_spec
                (upper (default EmptyString
                   (default ∅ (queryStringParameters event) !! "to"%string)))
                "") as [|_]; [contradiction|].
    cbn [orb]. split.
    + intros H.
      destruct (Z.eqb_spec (len (upper (default EmptyString
                  (default ∅ (queryStringParameters event) !! "from"%string)))) 3);
        [|reflexivity].
      destruct (Z.eqb_spec (len (upper (default EmptyString
                  (default ∅ (queryStringParameters event) !! "to"%string)))) 3);
        [|reflexivity].
      lia.
    + intros Hlf Hlt. rewrite Hlf, Hlt. cbn [Z.eqb Pos.eqb negb orb].
      unfold parse_amount, _to_dec. change (py_str (PyStr raw)) with raw.
      split.
      * intros ->. reflexivity.
      * intros a -> Hn. simpl. rewrite Hn. reflexivity.
  - apply status_400_no_call.
Qed.

(** What a successful resolution returns: a finite rate, which is the
    stored rate, or the quotient of the two cross rates, or the quotient
    of 1 by the opposite rate. *)
Lemma resolve_some canonical table f t calls info :
  resolve canonical table f t = (calls, Ok (Some info)) ->
  exists r, rate info = Fin r /\ 0 <= dcoeff r /\
    ((provenance info = direct /\
      exists v : Number, r = v /\ rate_in (table !! f) t = Some v)
     \/
     (provenance info = cross /\
      exists vf vt : Number,
        rate_in (table !! upper canonical) f = Some vf /\
        rate_in (table !! upper canonical) t = Some vt /\
        dcoeff vf <> 0 /\ Decimal_div (Fin vt) (Fin vf) = Ok (Fin r))
     \/
     (provenance info = inverse /\
      exists v : Number,
        rate_in (table !! t) f = Some v /\ dcoeff v <> 0 /\
        Decimal_div (Fin one) (Fin v) = Ok (Fin r))).
Proof.
  unfold resolve, direct_strategy.
  destruct (rate_in (table !! f) t) as [v|] eqn:Ed.
  { intros [= <- <-]. exists v. simpl.
    split; [reflexivity|]. split; [apply number_bounds|]. left. eauto. }
  unfold cross_strategy.
  destruct (rate_in (table !! upper canonical) f) as [vf|] eqn:Ef.
  - destruct (rate_in (table !! upper canonical) t) as [vt|] eqn:Et.
    + destruct (Z.eqb_spec (dcoeff vf) 0) as [Hz|Hnz].
      * unfold inverse_strategy.
        destruct (rate_in (table !! t) f) as [v|] eqn:Ei; [|discriminate].
        destruct (Z.eqb_spec (dcoeff v) 0) as [|Hv]; [discriminate|].
        destruct (Decimal_div_number one v Hv) as (q & Hq & _ & Hq0 & _).
        change (Fin one) with (Fin (mkdec false 1 0)) in Hq. rewrite Hq. simpl.
        intros [= <- <-]. exists q. simpl. repeat split; try assumption.
        right; right. split; [reflexivity|]. exists v. auto.
      * destruct (Decimal_div_number vt vf Hnz) as (q & Hq & _ & Hq0 & _).
        rewrite Hq. simpl. intros [= <- <-]. exists q. simpl.
        repeat split; try assumption.
        right; left. split; [reflexivity|]. exists vf, vt. auto.
    + unfold inverse_strategy.
      destruct (rate_in (table !! t) f) as [v|] eqn:Ei; [|discriminate].
      destruct (Z.eqb_spec (dcoeff v) 0) as [|Hv]; [discriminate|].
      destruct (Decimal_div_number one v Hv) as (q & Hq & _ & Hq0 & _).
      change (Fin one) with (Fin (mkdec false 1 0)) in Hq. rewrite Hq. simpl.
      intros [= <- <-]. exists q. simpl. repeat split; try assumption.
      right; right. split; [reflexivity|]. exists v. auto.
  - unfold inverse_strategy.
    destruct (rate_in (table !! t) f) as [v|] eqn:Ei; [|discriminate].
    destruct (Z.eqb_spec (dcoeff v) 0) as [|Hv]; [discriminate|].
    destruct (Decimal_div_number one v Hv) as (q & Hq & _ & Hq0 & _).
    change (Fin one) with (Fin (mkdec false 1 0)) in Hq. rewrite Hq. simpl.
    intros [= <- <-]. exists q. simpl. repeat split; try assumption.
    right; right. split; [reflexivity|]. exists v. auto.
Qed.

(** The resolver makes one, two or three point reads. *)
Lemma resolve_calls canonical table f t :
  let calls := fst (resolve canonical table f t) in
  (1 <= length calls <= 3)%nat /\ forallb point_read calls = true.
Proof.
  unfold resolve.
  destruct (direct_strategy _ _ _) as [[i|]|e]; simpl; try (split; [lia|reflexivity]).
  destruct (cross_strategy _ _ _ _) as [[i|]|e]; simpl; split; (lia || reflexivity).
Qed.

Lemma valid_request_amount event f t a :
  valid_request event f t a ->
  (exists d, a = Fin d /\ 0 <= dcoeff d) \/ a = Inf false.
Proof.
  intros (qs & rf & rt & ra & _ & _ & _ & _ & _ & _ & _ & _ & Hp & Hn).
  destruct a as [d|[|]|s]; try discriminate.
  - left. exists d. split; [reflexivity|]. eapply Decimal_of_string_nonneg, Hp.
  - right. reflexivity.
Qed.

(** The anatomy of a 200 response. *)
Lemma lambda_handler_success canonical table event calls resp :
  lambda_handler canonical event table = (calls, Ok resp) ->
  statusCode resp = 200 ->
  exists f t amount,
    valid_request event f t (Fin amount) /\ 0 <= dcoeff amount /\
    ((f = t /\ calls = [] /\
      exists q,
        quantize (Fin amount) (-4) = Ok q /\
        resp = _json 200 (ConversionBody
                 {| c_from := f; c_to := t;
                    c_amount := float_of (Fin amount); c_rate := float_one;
                    c_result := float_of q; c_asOf := None;
                    c_provenance := identity; c_baseUsed := None |}))
     \/
     (f <> t /\
      exists info result shown_rate shown_result,
        compute_rate canonical f t table = (calls, Ok (Some info)) /\
        Decimal_mul (Fin amount) (rate info) = Ok result /\
        quantize (rate info) (-4) = Ok shown_rate /\
        quantize result (-4) = Ok shown_result /\
        resp = _json 200 (ConversionBody
                 {| c_from := f; c_to := t;
                    c_amount := float_of (Fin amount);
                    c_rate := float_of shown_rate;
                    c_result := float_of shown_result;
                    c_asOf := asOf info;
                    c_provenance := provenance info;
                    c_baseUsed := Some (baseUsed info) |}))).
Proof.
  intros H Hs.
  destruct (lambda_handler_cases canonical table event)
    as [[e He]|(f & t & a & Hv)].
  { rewrite He in H. injection H as _ <-. destruct e; discriminate. }
  rewrite (lambda_handler_valid _ _ _ _ _ _ Hv) in H.
  destruct (valid_request_upper _ _ _ _ Hv) as [Hf Ht].
  destruct (String.eqb_spec f t) as [Heq|Hne].
  - rewrite identity_response_run in H. injection H as <- H.
    destruct (valid_request_amount _ _ _ _ Hv) as [(d & -> & Hd)| ->];
      [|discriminate].
    exists f, t, d. split; [assumption|]. split; [assumption|]. left.
    split; [assumption|]. split; [reflexivity|].
    destruct (quantize (Fin d) (-4)) as [q|]; [|discriminate].
    injection H as <-. eauto.
  - rewrite conversion_response_run, Hf, Ht in H.
    destruct (resolve canonical table f t) as [calls' [[info|]|e]] eqn:Er.
    + injection H as <- H.
      destruct (resolve_some _ _ _ _ _ _ Er) as (r & Hr & _).
      unfold converted, bind_res in H.
      destruct (Decimal_mul a (rate info)) as [result|] eqn:Em; [|discriminate].
      destruct (quantize (rate info) (-4)) as [sr|] eqn:Eq1; [|discriminate].
      destruct (quantize result (-4)) as [sx|] eqn:Eq2; [|discriminate].
      injection H as <-.
      destruct (valid_request_amount _ _ _ _ Hv) as [(d & -> & Hd)| ->].
      * exists f, t, d. split; [assumption|]. split; [assumption|]. right.
        split; [assumption|]. exists info, result, sr, sx.
        rewrite compute_rate_resolve, Hf, Ht. auto.
      * exfalso. rewrite Hr in Em. simpl in Em.
        destruct (dcoeff r =? 0); [discriminate|].
        injection Em as <-. discriminate.
    + injection H as _ <-. discriminate.
    + discriminate.
Qed.

(** C10 (amended). Reads of the table: a request makes at most three
    calls on the table, each of them a [get_item] by key; none is a scan. *)
Theorem at_most_three_point_reads (CANONICAL_BASE : string)
    (table : gmap string Item) (event : Event) :
  let calls := fst (lambda_handler CANONICAL_BASE event table) in
  (length calls <= 3)%nat /\ forallb point_read calls = true.
Proof.
  cbv zeta.
  destruct (lambda_handler_cases CANONICAL_BASE table event)
    as [[e He]|(f & t & a & Hv)].
  { rewrite He. simpl. split; [lia|reflexivity]. }
  rewrite (lambda_handler_valid _ _ _ _ _ _ Hv).
  destruct (f =? t)%string.
  - rewrite identity_response_run. simpl. split; [lia|reflexivity].
  - rewrite conversion_response_run.
    pose proof (resolve_calls CANONICAL_BASE table (upper f) (upper t)) as Hc.
    destruct (resolve CANONICAL_BASE table (upper f) (upper t))
      as [calls [[info|]|e]]; simpl in *; split; (lia || apply Hc).
Qed.

(** C9 (amended). Positive rates: in a table whose stored rates are all
    strictly positive, the rate of a successful resolution is strictly
    positive, whichever of the three strategies produced it. *)
Theorem resolved_rate_positive (CANONICAL_BASE : string)
    (table : gmap string Item) (from_cur to_cur : string)
    (calls : list table_call) (info : RateInfo) :
  positive_rates table ->
  compute_rate CANONICAL_BASE from_cur to_cur table = (calls, Ok (Some info)) ->
  positive (rate info) /\
  (provenance info = direct \/ provenance info = cross
   \/ provenance info = inverse).
Proof.
  intros Hpos H. rewrite compute_rate_resolve in H.
  destruct (resolve_some _ _ _ _ _ _ H) as (r & Hr & _ & Hcase).
  rewrite Hr.
  destruct Hcase as [(Hp & v & -> & Hv)|[(Hp & vf & vt & Hf & Ht & Hnz & Hq)
                                        |(Hp & v & Hv & Hnz & Hq)]].
  - split; [|auto]. exact (Hpos _ _ _ Hv).
  - split; [|auto].
    destruct (Hpos _ _ _ Hf) as [Hsf Hcf]. destruct (Hpos _ _ _ Ht) as [Hst Hct].
    destruct (Decimal_div_number vt vf Hnz) as (q & Hq' & Hs & _ & Hq0).
    rewrite Hq in Hq'. injection Hq' as ->.
    simpl. rewrite Hs, Hst, Hsf. split; [reflexivity|apply Hq0; lia].
  - split; [|auto].
    destruct (Hpos _ _ _ Hv) as [Hsv Hcv].
    destruct (Decimal_div_number one v Hnz) as (q & Hq' & Hs & _ & Hq0).
    rewrite Hq in Hq'. injection Hq' as ->.
    simpl. rewrite Hs, Hsv. split; [reflexivity|apply Hq0; simpl; lia].
Qed.

Lemma quantize4_rounded d q :
  0 <= dcoeff d -> quantize (Fin d) (-4) = Ok q -> rounded4 d (float_of q).
Proof.
  intros Hc Hq. rewrite (quantize4_value d q Hc Hq).
  destruct (rescale_half_up d (-4) Hc) as (Hs & He & _ & Hh).
  exists (_rescale d (-4)). auto.
Qed.

(** C7. Rounding law: in every 200 response the displayed result is the
    half-up rounding to four places (exponent -4, nearest multiple of
    0.0001, ties away from zero) of the amount in the identity branch and
    of the product [amount * rate] otherwise, and the displayed rate is
    the half-up rounding to four places of the resolved rate (the literal
    1.0 in the identity branch).  Quantizing 0.00005 gives 0.0001 and
    not 0.0000. *)
Theorem displayed_numbers_half_up :
  (forall (CANONICAL_BASE : string) (table : gmap string Item)
          (event : Event) (calls : list table_call) (resp : Response),
     lambda_handler CANONICAL_BASE event table = (calls, Ok resp) ->
     statusCode resp = 200 ->
     exists f t amount c,
       valid_request event f t (Fin amount) /\
       body resp = ConversionBody c /\
       ((f = t /\ c_provenance c = identity /\ c_rate c = float_one /\
         rounded4 amount (c_result c))
        \/
        (f <> t /\
         exists info r x,
           compute_rate CANONICAL_BASE f t table = (calls, Ok (Some info)) /\
           rate info = Fin r /\
           Decimal_mul (Fin amount) (Fin r) = Ok (Fin x) /\
           rounded4 r (c_rate c) /\ rounded4 x (c_result c))))
  /\
  (Decimal_of_string "0.00005" = Some (Fin (mkdec false 5 (-5))) /\
   quantize (Fin (mkdec false 5 (-5))) (-4) = Ok (Fin (mkdec false 1 (-4))) /\
   quantize (Fin (mkdec false 5 (-5))) (-4) <> Ok (Fin (mkdec false 0 (-4))) /\
   Decimal_str (Fin (mkdec false 1 (-4))) = "0.0001"%string).
Proof.
  split.
  - intros CANONICAL_BASE table event calls resp H Hs.
    destruct (lambda_handler_success _ _ _ _ _ H Hs)
      as (f & t & amount & Hv & Ha &
          [(Heq & _ & q & Hq & ->)
          |(Hne & info & result & sr & sx & Hr & Hm & Hq1 & Hq2 & ->)]).
    + eexists f, t, amount, _. split; [exact Hv|]. split; [reflexivity|].
      left. simpl. repeat split; try assumption.
      apply quantize4_rounded; assumption.
    + eexists f, t, amount, _. split; [exact Hv|]. split; [reflexivity|].
      right. split; [assumption|]. simpl.
      pose proof Hr as Hr'. rewrite compute_rate_resolve in Hr'.
      destruct (resolve_some _ _ _ _ _ _ Hr') as (r & Er & Hr0 & _).
      rewrite Er in Hm, Hq1.
      destruct (Decimal_mul_finite _ _ _ Ha Hr0 Hm) as (x & -> & Hx).
      exists info, r, x. repeat split; try assumption.
      * apply quantize4_rounded; assumption.
      * apply quantize4_rounded; assumption.
  - repeat split; try (vm_compute; reflexivity).
    vm_compute. discriminate.
Qed.

(** C8. The result is computed from the unrounded rate: in every 200
    response between different codes the displayed result is
    [_round4(amount * rate)] for the rate that [compute_rate] returned,
    and the displayed rate is the quantization of that same rate, made
    independently.  With the direct rate 0.00005 and the amount 3 the
    displayed rate is 0.0001 and the displayed result 0.0002, while the
    displayed rate times the amount, rounded, is 0.0003. *)
Theorem result_from_unrounded_rate :
  (forall (CANONICAL_BASE : string) (table : gmap string Item)
          (event : Event) (calls : list table_call) (resp : Response)
          (f t : string) (amount : Decimal),
     lambda_handler CANONICAL_BASE event table = (calls, Ok resp) ->
     statusCode resp = 200 ->
     valid_request event f t amount -> f <> t ->
     exists info result shown_rate c,
       compute_rate CANONICAL_BASE f t table = (calls, Ok (Some info)) /\
       Decimal_mul amount (rate info) = Ok result /\
       body resp = ConversionBody c /\
       _round4 result = Ok (c_result c) /\
       quantize (rate info) (-4) = Ok shown_rate /\
       c_rate c = float_of shown_rate)
  /\
  (exists (table : gmap string Item) (event : Event) (c : Conversion),
     snd (lambda_handler "USD" event table) = Ok (_json 200 (ConversionBody c)) /\
     valid_request event "USD" "EUR" (Fin (mkdec false 3 0)) /\
     c_rate c = float_of (Fin (mkdec false 1 (-4))) /\
     c_result c = float_of (Fin (mkdec false 2 (-4))) /\
     bind_res (Decimal_mul (Fin (mkdec false 3 0)) (Fin (mkdec false 1 (-4))))
       (fun y => quantize y (-4))
     = Ok (Fin (mkdec false 3 (-4))) /\
     c_result c <> float_of (Fin (mkdec false 3 (-4)))).
Proof.
  split.
  - intros CANONICAL_BASE table event calls resp f t amount H Hs Hv Hne.
    rewrite (lambda_handler_valid _ _ _ _ _ _ Hv) in H.
    destruct (valid_request_upper _ _ _ _ Hv) as [Hf Ht].
    destruct (String.eqb_spec f t) as [|_]; [contradiction|].
    rewrite conversion_response_run, Hf, Ht in H.
    rewrite compute_rate_resolve, Hf, Ht.
    destruct (resolve CANONICAL_BASE table f t) as [calls' [[info|]|e]].
    + injection H as <- H. unfold converted, bind_res in H.
      destruct (Decimal_mul amount (rate info)) as [result|] eqn:Em;
        [|discriminate].
      destruct (quantize (rate info) (-4)) as [sr|] eqn:Er; [|discriminate].
      destruct (quantize result (-4)) as [sx|] eqn:Ex; [|discriminate].
      injection H as <-. eexists info, result, sr, _.
      split; [reflexivity|]. split; [exact Em|]. split; [reflexivity|].
      simpl. unfold _round4. rewrite Ex. simpl. auto.
    + injection H as _ <-. discriminate.
    + discriminate.
  - exists (<["USD"%string :=
              mkItem (Some (<["EUR"%string :=
                               mkNumber (mkdec false 5 (-5)) eq_refl]> ∅))
                     None]> ∅).
    exists (request [("from", "USD"); ("to", "EUR"); ("amount", "3")]%string).
    eexists. split; [vm_compute; reflexivity|].
    split.
    + unfold valid_request, request. simpl queryStringParameters.
      eexists _, "USD"%string, "EUR"%string, "3"%string.
      repeat split; vm_compute; reflexivity.
    + split; [reflexivity|]. split; [reflexivity|].
      split; [vm_compute; reflexivity|]. simpl. discriminate.
Qed.

(* ===================================================================== *)
(** ** 12. The properties on the sample data                             *)
(* ===================================================================== *)

Import Sample.

(** C1 on a table that also holds cross data (canonical base GBP) and
    inverse data for USD->EUR. *)
Lemma direct_precedence_witness :
  compute_rate "GBP" "USD" "EUR" table_all
  = ([get_item "USD"%string],
     Ok (Some {| rate := Fin n_0_92; asOf := stamp;
                 provenance := direct; baseUsed := "USD" |})).
Proof.
  exact (direct_precedence "GBP" table_all "USD" "EUR" item_usd rates_usd n_0_92
           eq_refl eq_refl eq_refl eq_refl eq_refl).
Defined.









Lemma query_valid f t raw a :
  len (upper f) = 3 -> len (upper t) = 3 ->
  Decimal_of_string raw = Some a -> Decimal_lt0 a = Ok false ->
  valid_request (query f t raw) (upper f) (upper t) a.
Proof.
  intros Hf Ht Hp Hn. unfold valid_request, query, request.
  eexists _, f, t, raw. repeat split; try assumption; reflexivity.
Qed.

Lemma empty_no_direct f t : ~ direct_available ∅ f t.
Proof. intros [v Hv]. rewrite lookup_empty in Hv. discriminate. Qed.

Lemma empty_no_cross c f t : ~ cross_available c ∅ f t.
Proof. intros (vf & vt & Hv & _). rewrite lookup_empty in Hv. discriminate. Qed.

Lemma empty_no_inverse f t : ~ inverse_available ∅ f t.
Proof. intros (v & Hv & _). rewrite lookup_empty in Hv. discriminate. Qed.

(** C4 on the empty table. *)
Lemma unavailable_not_found_witness :
  lambda_handler "USD" (query "eur" "gbp" "100") ∅
  = ([get_item "EUR"%string; get_item "USD"%string; get_item "GBP"%string],
     Ok (_json 404 (not_found_body "USD" "EUR" "GBP"))).
Proof.
  apply (unavailable_not_found "USD" ∅ (query "eur" "gbp" "100") "EUR" "GBP"
           (Fin (mkdec false 100 0))).
  - apply (query_valid "eur" "gbp" "100"); reflexivity.
  - discriminate.
  - apply empty_no_direct.
  - apply empty_no_cross.
  - apply empty_no_inverse.
Defined.

(** C5 for the amount 12.34565, a tie that rounds up to 12.3457. *)
Lemma identity_conversion_witness :
  lambda_handler "USD" (query "usd" "USD" "12.34565") table_all
  = ([],
     Ok (_json 200 (ConversionBody
           {| c_from := "USD"; c_to := "USD";
              c_amount := float_of (Fin (mkdec false 1234565 (-5)));
              c_rate := float_one;
              c_result := float_of (Fin (mkdec false 123457 (-4)));
              c_asOf := None;
              c_provenance := identity;
              c_baseUsed := None |}))).
Proof.
  apply (identity_conversion "USD" table_all (query "usd" "USD" "12.34565")
           "USD" (mkdec false 1234565 (-5)) 123457).
  - apply (query_valid "usd" "USD" "12.34565"); reflexivity.
  - unfold half_up_at. vm_compute. split; [reflexivity|discriminate].
  - reflexivity.
Defined.

(** C5, as stated, fails on an amount of 25 integer digits: the
    request is valid, and [quantize] raises InvalidOperation because the
    rounded amount would need more than 28 digits. *)
Lemma identity_large_amount_raises :
  valid_request (query "USD" "USD" "1E+25") "USD" "USD" (Fin (mkdec false 1 25))
  /\
  lambda_handler "USD" (query "USD" "USD" "1E+25") ∅ = ([], Raise InvalidOperation).
Proof.
  split.
  - apply (query_valid "USD" "USD" "1E+25"); reflexivity.
  - vm_compute. reflexivity.
Qed.

(** C6 on the four examples of the specification. *)
Lemma validation_errors_witness :
  lambda_handler "USD" (query "USD" "EUR" "-1") ∅
  = ([], Ok (validation_reply negative_amount))
  /\
  lambda_handler "USD" (query "USD" "EUR" "abc") ∅
  = ([], Ok (validation_reply bad_amount))
  /\
  lambda_handler "USD" (query "US" "EUR" "1") ∅
  = ([], Ok (validation_reply bad_currency_code))
  /\
  lambda_handler "USD" (request [("from", "USD"); ("amount", "1")]%string) ∅
  = ([], Ok (validation_reply missing_params)).
Proof.
  split; [|split; [|split]].
  - refine (proj2 (proj2 (proj1 (proj2 (validation_errors "USD" ∅
              (query "USD" "EUR" "-1"))) "-1"%string _ _ eq_refl) eq_refl eq_refl)
              (Fin (mkdec true 1 0)) eq_refl eq_refl); discriminate.
  - refine (proj1 (proj2 (proj1 (proj2 (validation_errors "USD" ∅
              (query "USD" "EUR" "abc"))) "abc"%string _ _ eq_refl) eq_refl eq_refl)
              eq_refl); discriminate.
  - refine (proj1 (proj1 (proj2 (validation_errors "USD" ∅
              (query "US" "EUR" "1"))) "1"%string _ _ eq_refl) _);
      [discriminate|discriminate|left; vm_compute; discriminate].
  - refine (proj1 (validation_errors "USD" ∅
              (request [("from", "USD"); ("amount", "1")]%string)) _).
    right; left. reflexivity.
Defined.

Lemma table_usd_positive : positive_rates table_usd.
Proof.
  intros key cur v H. unfold table_usd in H.
  destruct (decide (key = "USD"%string)) as [->|Hk].
  - rewrite lookup_singleton_eq in H. simpl in H. unfold rates_usd in H.
    destruct (decide (cur = "EUR"%string)) as [->|Hc].
    + rewrite lookup_singleton_eq in H. injection H as <-.
      simpl. split; [reflexivity|lia].
    + rewrite lookup_singleton_ne in H by congruence. discriminate.
  - rewrite lookup_singleton_ne in H by congruence. discriminate.
Qed.

(** C9 on the table that holds 0.92 for USD->EUR. *)
Lemma resolved_rate_positive_witness :
  positive (Fin n_0_92) /\
  (direct = direct \/ direct = cross \/ direct = inverse).
Proof.
  exact (resolved_rate_positive "USD" table_usd "USD" "EUR"
           [get_item "USD"%string]
           {| rate := Fin n_0_92; asOf := stamp;
              provenance := direct; baseUsed := "USD" |}
           table_usd_positive eq_refl).
Defined.

(** C9, as stated, fails on a stored rate of zero: the direct strategy
    returns it as it is. *)
Lemma zero_rate_resolved :
  compute_rate "USD" "USD" "EUR" table_null
  = ([get_item "USD"%string],
     Ok (Some {| rate := Fin (mkdec false 0 0); asOf := stamp;
                 provenance := direct; baseUsed := "USD" |}))
  /\ ~ positive (Fin (mkdec false 0 0)).
Proof.
  split.
  - vm_compute. reflexivity.
  - simpl. lia.
Qed.

(** C10, as stated, fails when no strategy applies: the three records
    are read one after the other. *)
Lemma three_reads :
  fst (lambda_handler "USD" (query "EUR" "GBP" "1") ∅)
  = [get_item "EUR"%string; get_item "USD"%string; get_item "GBP"%string]
  /\ ~ (length (fst (lambda_handler "USD" (query "EUR" "GBP" "1") ∅)) <= 2)%nat.
Proof.
  split.
  - vm_compute. reflexivity.
  - vm_compute. lia.
Qed.

(** C7 on the end-to-end example of the specification: USD->EUR at
    0.9200, amount 10. *)
Lemma displayed_numbers_half_up_witness :
  exists f t amount c,
    valid_request (query "USD" "EUR" "10") f t (Fin amount) /\
    body (_json 200 (ConversionBody
            {| c_from := "USD"; c_to := "EUR";
               c_amount := float_of (Fin (mkdec false 10 0));
               c_rate := float_of (Fin (mkdec false 9200 (-4)));
               c_result := float_of (Fin (mkdec false 92000 (-4)));
               c_asOf := stamp; c_provenance := direct;
               c_baseUsed := Some "USD"%string |}))
    = ConversionBody c /\
    ((f = t /\ c_provenance c = identity /\ c_rate c = float_one /\
      rounded4 amount (c_result c))
     \/
     (f <> t /\
      exists info r x,
        compute_rate "USD" f t table_usd
        = ([get_item "USD"%string], Ok (Some info)) /\
        rate info = Fin r /\
        Decimal_mul (Fin amount) (Fin r) = Ok (Fin x) /\
        rounded4 r (c_rate c) /\ rounded4 x (c_result c))).
Proof.
  exact (proj1 displayed_numbers_half_up "USD" table_usd
           (query "USD" "EUR" "10") _ _ eq_refl eq_refl).
Defined.

(** C8 on the cross example of the specification: EUR->GBP, amount
    100, displayed rate 0.8587 and result 85.8696. *)
Lemma result_from_unrounded_rate_witness :
  exists info result shown_rate c,
    compute_rate "USD" "EUR" "GBP" table_pivot
    = ([get_item "EUR"%string; get_item "USD"%string], Ok (Some info)) /\
    Decimal_mul (Fin (mkdec false 100 0)) (rate info) = Ok result /\
    body (_json 200 (ConversionBody
            {| c_from := "EUR"; c_to := "GBP";
               c_amount := float_of (Fin (mkdec false 100 0));
               c_rate := float_of (Fin (mkdec false 8587 (-4)));
               c_result := float_of (Fin (mkdec false 858696 (-4)));
               c_asOf := stamp; c_provenance := cross;
               c_baseUsed := Some "USD"%string |}))
    = ConversionBody c /\
    _round4 result = Ok (c_result c) /\
    quantize (rate info) (-4) = Ok shown_rate /\
    c_rate c = float_of shown_rate.
Proof.
  refine (proj1 result_from_unrounded_rate "USD" table_pivot
            (query "eur" "gbp" "100")
            [get_item "EUR"%string; get_item "USD"%string]
            (_json 200 (ConversionBody
               {| c_from := "EUR"; c_to := "GBP";
                  c_amount := float_of (Fin (mkdec false 100 0));
                  c_rate := float_of (Fin (mkdec false 8587 (-4)));
                  c_result := float_of (Fin (mkdec false 858696 (-4)));
                  c_asOf := stamp; c_provenance := cross;
                  c_baseUsed := Some "USD"%string |}))
            "EUR"%string "GBP"%string
            (Fin (mkdec false 100 0)) _ eq_refl _ _).
  - vm_compute. reflexivity.
  - apply (query_valid "eur" "gbp" "100"); reflexivity.
  - discriminate.
Defined.

(* ===================================================================== *)
(** ** 13. Further properties of the numeric helpers                     *)
(* ===================================================================== *)

(** X1. Round trip of [_to_dec] on a Decimal: a finite value that the
    exact constructor can hold (a coefficient that is not negative, within
    the limits of the maximal context) comes back from [Decimal(str(d))]
    as it is: same sign, same coefficient and same exponent, trailing
    zeros included. *)
Theorem to_dec_roundtrip (d : dec) :
  0 <= dcoeff d -> exact_in_maxcontext d = true ->
  _to_dec (PyDecimal (Fin d)) = Ok (Fin d).
Proof.
  intros Hc Hx. unfold _to_dec, py_str.
  rewrite Decimal_of_string_str by assumption. reflexivity.
Qed.

Lemma rescale_same d : dexp d = -4 -> _rescale d (-4) = d.
Proof.
  intros He. unfold _rescale. destruct d as [s c e]. simpl in *. subst e.
  destruct (Z.eqb_spec c 0) as [->|_]; [reflexivity|].
  simpl. change (10 ^ (-4 - -4)) with 1. rewrite Z.mul_1_r. reflexivity.
Qed.

(** [quantize] to four places raises [InvalidOperation] when the rounded
    value needs more than [prec] digits. *)
Lemma quantize4_raises d :
  0 <= dcoeff d -> 10 ^ prec <= dcoeff (_rescale d (-4)) ->
  quantize (Fin d) (-4) = Raise InvalidOperation.
Proof.
  intros Hc Hbig. unfold quantize.
  change (negb ((Etiny <=? -4) && (-4 <=? Emax))) with false. cbv iota.
  destruct (Z.eqb_spec (dcoeff d) 0) as [E|E].
  { exfalso. unfold _rescale in Hbig. rewrite E in Hbig. simpl in Hbig.
    pose proof (pow10_gt0 prec ltac:(unfold prec; lia)). lia. }
  destruct (Emax <? adjusted d); [reflexivity|].
  destruct (prec <? adjusted d - -4 + 1); [reflexivity|].
  destruct (Emax <? adjusted (_rescale d (-4))); [reflexivity|].
  destruct (Z.ltb_spec prec (ndigits (dcoeff (_rescale d (-4))))) as [|Hn];
    [reflexivity|exfalso].
  pose proof (pow10_gt0 prec ltac:(unfold prec; lia)).
  pose proof (ndigits_ge (dcoeff (_rescale d (-4))) prec ltac:(lia) Hbig). lia.
Qed.

(** X2. [_round4] on a finite value: with [n] the magnitude rounded
    half up to four places, it returns the float of the Decimal of the same
    sign, of coefficient [n] and of exponent -4 when [n] has at most 28
    digits, and raises InvalidOperation when [n] has more. *)
Theorem round4_returns_or_raises (d : dec) (n : Z) :
  0 <= dcoeff d -> half_up_at d (-4) n ->
  _round4 (Fin d)
  = if n <? 10 ^ prec
    then Ok (float_of (Fin (mkdec (dsign d) n (-4))))
    else Raise InvalidOperation.
Proof.
  intros Hc Hn.
  destruct (rescale_half_up d (-4) Hc) as (Hs & He & Hc' & Hh).
  pose proof (half_up_at_unique _ _ _ _ Hn Hh) as ->.
  unfold _round4.
  destruct (Z.ltb_spec (dcoeff (_rescale d (-4))) (10 ^ prec)) as [Hlt|Hge].
  - rewrite quantize4_fits by assumption. simpl.
    destruct (_rescale d (-4)) as [s c e]. simpl in *. subst. reflexivity.
  - rewrite quantize4_raises by assumption. reflexivity.
Qed.

(** X3. [_round4] is idempotent: the Decimal whose float it returned
    is returned as it is when it is rounded again. *)
Theorem round4_idempotent (d : dec) (q : Decimal) :
  0 <= dcoeff d -> _round4 (Fin d) = Ok (float_of q) ->
  _round4 q = Ok (float_of q).
Proof.
  intros Hc. unfold _round4.
  destruct (quantize (Fin d) (-4)) as [q'|] eqn:Eq; [|discriminate].
  simpl. intros [= <-].
  pose proof (quantize4_value _ _ Hc Eq) as ->.
  destruct (rescale_half_up d (-4) Hc) as (Hs & He & Hc' & _).
  destruct (Z_lt_le_dec (dcoeff (_rescale d (-4))) (10 ^ prec)) as [Hlt|Hge].
  - rewrite quantize4_fits; rewrite ?rescale_same by assumption;
      try assumption. reflexivity.
  - rewrite quantize4_raises in Eq by assumption. discriminate.
Qed.

(* ===================================================================== *)
(** ** 14. Further properties of the resolver                            *)
(* ===================================================================== *)

Lemma resolve_total canonical table f t :
  exists r, snd (resolve canonical table f t) = Ok r.
Proof.
  unfold resolve, direct_strategy.
  destruct (rate_in (table !! f) t) as [v|]; [simpl; eauto|].
  destruct (cross_strategy_total canonical (table !! upper canonical) f t)
    as [[info|] ->]; [simpl; eauto|].
  simpl. apply inverse_strategy_total.
Qed.

(** X4. [compute_rate] raises nothing, whatever the table holds: the
    numbers of the table go through [_to_dec], both divisions are guarded
    against a zero divisor, and their quotients stay within the exponents
    of the context. *)
Theorem compute_rate_never_raises (CANONICAL_BASE : string)
    (table : gmap string Item) (from_cur to_cur : string) :
  exists r, snd (compute_rate CANONICAL_BASE from_cur to_cur table) = Ok r.
Proof. rewrite compute_rate_resolve. apply resolve_total. Qed.

(** X5. [compute_rate] depends on three records only: on two tables
    that agree on the records of [from], of the canonical base and of [to]
    (keys upper-cased) it makes the same reads and returns the same
    result. *)
Theorem compute_rate_reads_three_records (CANONICAL_BASE : string)
    (table table' : gmap string Item) (from_cur to_cur : string) :
  table !! upper from_cur = table' !! upper from_cur ->
  table !! upper CANONICAL_BASE = table' !! upper CANONICAL_BASE ->
  table !! upper to_cur = table' !! upper to_cur ->
  compute_rate CANONICAL_BASE from_cur to_cur table
  = compute_rate CANONICAL_BASE from_cur to_cur table'.
Proof.
  intros Hf Hc Ht. rewrite !compute_rate_resolve. unfold resolve.
  rewrite Hf, Hc, Ht. reflexivity.
Qed.

(** The result of a resolution names the record it was taken from, and
    the reads that were made tell which strategy gave it. *)
Lemma resolve_provenance canonical table f t calls info :
  resolve canonical table f t = (calls, Ok (Some info)) ->
  match provenance info with
  | direct =>
      baseUsed info = f /\ asOf info = item_get_asOf (table !! f) /\
      calls = [get_item f]
  | cross =>
      baseUsed info = canonical /\
      asOf info = item_get_asOf (table !! upper canonical) /\
      calls = [get_item f; get_item (upper canonical)]
  | inverse =>
      baseUsed info = t /\ asOf info = item_get_asOf (table !! t) /\
      calls = [get_item f; get_item (upper canonical); get_item t]
  | identity => False
  end.
Proof.
  unfold resolve, direct_strategy.
  destruct (rate_in (table !! f) t) as [v|].
  { intros [= <- <-]. simpl. auto. }
  assert (Hi : forall c,
    (c, inverse_strategy (table !! t) f t) = (calls, Ok (Some info)) ->
    baseUsed info = t /\ asOf info = item_get_asOf (table !! t) /\ calls = c
    /\ provenance info = inverse).
  { intros c. unfold inverse_strategy.
    destruct (rate_in (table !! t) f) as [r|]; [|discriminate].
    destruct (dcoeff r =? 0); [discriminate|].
    destruct (Decimal_div _ _) as [q|e]; [|discriminate].
    simpl. intros [= <- <-]. simpl. auto. }
  unfold cross_strategy.
  destruct (rate_in (table !! upper canonical) f) as [vf|].
  2:{ intros H. apply Hi in H as (H1 & H2 & H3 & ->). auto. }
  destruct (rate_in (table !! upper canonical) t) as [vt|].
  2:{ intros H. apply Hi in H as (H1 & H2 & H3 & ->). auto. }
  destruct (dcoeff vf =? 0).
  { intros H. apply Hi in H as (H1 & H2 & H3 & ->). auto. }
  destruct (Decimal_div _ _) as [q|e]; [|discriminate].
  simpl. intros [= <- <-]. simpl. auto.
Qed.

(** X6. The dictionary that [compute_rate] returns names the record it
    was taken from: [asOf] is the one of the record whose key is [baseUsed]
    upper-cased, and the provenance fixes [baseUsed] and the reads that
    were made: direct, [from] after one read; cross, the canonical base as
    configured after two; inverse, [to] after three.  The provenance is
    never identity. *)
Theorem provenance_names_the_record (CANONICAL_BASE : string)
    (table : gmap string Item) (from_cur to_cur : string)
    (calls : list table_call) (info : RateInfo) :
  compute_rate CANONICAL_BASE from_cur to_cur table = (calls, Ok (Some info)) ->
  asOf info = item_get_asOf (table !! upper (baseUsed info)) /\
  match provenance info with
  | direct =>
      baseUsed info = upper from_cur /\
      calls = [get_item (upper from_cur)]
  | cross =>
      baseUsed info = CANONICAL_BASE /\
      calls = [get_item (upper from_cur); get_item (upper CANONICAL_BASE)]
  | inverse =>
      baseUsed info = upper to_cur /\
      calls = [get_item (upper from_cur); get_item (upper CANONICAL_BASE);
               get_item (upper to_cur)]
  | identity => False
  end.
Proof.
  rewrite compute_rate_resolve. intros H.
  apply resolve_provenance in H.
  destruct (provenance info); [| | |contradiction];
    destruct H as (Hb & Ha & Hc); rewrite Hb, Ha, Hc, ?upper_idem; auto.
Qed.

(* ===================================================================== *)
(** ** 15. Further properties of the handler                             *)
(* ===================================================================== *)

Lemma request_lookup f t a :
  let qs : gmap string string :=
    list_to_map [("from", f); ("to", t); ("amount", a)]%string in
  qs !! "from"%string = Some f /\ qs !! "to"%string = Some t /\
  qs !! "amount"%string = Some a.
Proof. repeat split; reflexivity. Qed.

(** X7. Currency codes are taken without regard to case: the handler
    answers a request as it answers the request with both codes
    upper-cased, and [compute_rate] returns the same for both. *)
Theorem codes_case_insensitive (CANONICAL_BASE : string)
    (table : gmap string Item) (from_cur to_cur amount : string) :
  lambda_handler CANONICAL_BASE
    (request [("from", from_cur); ("to", to_cur); ("amount", amount)]%string)
    table
  = lambda_handler CANONICAL_BASE
      (request [("from", upper from_cur); ("to", upper to_cur);
                ("amount", amount)]%string)
      table
  /\
  compute_rate CANONICAL_BASE from_cur to_cur table
  = compute_rate CANONICAL_BASE (upper from_cur) (upper to_cur) table.
Proof.
  split.
  - unfold lambda_handler, request. cbn [queryStringParameters]. norm_default.
    destruct (request_lookup from_cur to_cur amount) as (-> & -> & ->).
    destruct (request_lookup (upper from_cur) (upper to_cur) amount)
      as (-> & -> & ->).
    norm_default. rewrite !upper_idem. reflexivity.
  - rewrite !compute_rate_resolve, !upper_idem. reflexivity.
Qed.

Lemma resolve_none_calls canonical table f t calls :
  resolve canonical table f t = (calls, Ok None) ->
  calls = [get_item f; get_item (upper canonical); get_item t].
Proof.
  unfold resolve, direct_strategy.
  destruct (rate_in (table !! f) t); [discriminate|].
  destruct (cross_strategy _ _ _ _) as [[i|]|e]; try discriminate.
  intros [= <- _]. reflexivity.
Qed.

Lemma converted_body f t a info resp :
  converted f t a info = Ok resp ->
  exists c,
    resp = _json 200 (ConversionBody c) /\ c_from c = f /\ c_to c = t /\
    c_amount c = float_of a /\
    c_asOf c = asOf info /\ c_provenance c = provenance info /\
    c_baseUsed c = Some (baseUsed info).
Proof.
  unfold converted, bind_res.
  destruct (Decimal_mul a (rate info)); [|discriminate].
  destruct (quantize (rate info) (-4)); [|discriminate].
  destruct (quantize _ (-4)); [|discriminate].
  intros [= <-]. eexists. split; [reflexivity|]. simpl. auto 8.
Qed.

(** X8. What the handler returns is one of three: status 200 with the
    body of a conversion; status 400 with one of the four validation
    errors, no call having been made on the table; or status 404 with the
    error and the hint for the codes of a valid request between two
    different codes, after three reads. *)
Theorem response_shapes (CANONICAL_BASE : string)
    (table : gmap string Item) (event : Event)
    (calls : list table_call) (resp : Response) :
  lambda_handler CANONICAL_BASE event table = (calls, Ok resp) ->
  (statusCode resp = 200 /\ exists c, body resp = ConversionBody c)
  \/
  (statusCode resp = 400 /\ calls = [] /\
   exists e, resp = validation_reply e)
  \/
  (statusCode resp = 404 /\ length calls = 3%nat /\
   exists from_cur to_cur amount,
     valid_request event from_cur to_cur amount /\ from_cur <> to_cur /\
     resp = _json 404 (not_found_body CANONICAL_BASE from_cur to_cur)).
Proof.
  intros H.
  destruct (lambda_handler_cases CANONICAL_BASE table event)
    as [[e He]|(f & t & a & Hv)].
  { rewrite He in H. injection H as <- <-. right; left.
    split; [reflexivity|]. split; [reflexivity|]. exists e. reflexivity. }
  rewrite (lambda_handler_valid _ _ _ _ _ _ Hv) in H.
  destruct (valid_request_upper _ _ _ _ Hv) as [Hf Ht].
  destruct (String.eqb_spec f t) as [Heq|Hne].
  - rewrite identity_response_run in H. injection H as _ H.
    destruct (quantize a (-4)); [|discriminate].
    injection H as <-. left. split; [reflexivity|]. eexists. reflexivity.
  - rewrite conversion_response_run, Hf, Ht in H.
    destruct (resolve CANONICAL_BASE table f t) as [calls' [[info|]|e]] eqn:Er.
    + injection H as _ H. left.
      destruct (converted_body _ _ _ _ _ H) as (c & -> & _).
      split; [reflexivity|]. exists c. reflexivity.
    + injection H as <- <-. right; right.
      rewrite (resolve_none_calls _ _ _ _ _ Er).
      split; [reflexivity|]. split; [reflexivity|].
      exists f, t, a. auto.
    + discriminate.
Qed.

Lemma resolve_not_identity canonical table f t calls info :
  resolve canonical table f t = (calls, Ok (Some info)) ->
  provenance info <> identity.
Proof.
  intros H Hp. apply resolve_provenance in H. rewrite Hp in H. exact H.
Qed.

(** X9. The fields of a 200 body: [from] and [to] are the parameters
    upper-cased; [provenance] is identity exactly when the two are equal,
    and [baseUsed] is absent exactly then; and in that case no call was
    made on the table, [rate] is the literal 1.0 and [asOf] is null. *)
Theorem conversion_body_fields (CANONICAL_BASE : string)
    (table : gmap string Item) (event : Event)
    (calls : list table_call) (resp : Response) (c : Conversion) :
  lambda_handler CANONICAL_BASE event table = (calls, Ok resp) ->
  body resp = ConversionBody c ->
  let qs := default ∅ (queryStringParameters event) in
  c_from c = upper (default EmptyString (qs !! "from"%string)) /\
  c_to c = upper (default EmptyString (qs !! "to"%string)) /\
  (c_provenance c = identity <-> c_from c = c_to c) /\
  (c_baseUsed c = None <-> c_from c = c_to c) /\
  (c_from c = c_to c ->
   calls = [] /\ c_rate c = float_one /\ c_asOf c = None).
Proof.
  intros H Hb.
  destruct (lambda_handler_cases CANONICAL_BASE table event)
    as [[e He]|(f & t & a & Hv)].
  { rewrite He in H. injection H as _ <-. discriminate. }
  rewrite (lambda_handler_valid _ _ _ _ _ _ Hv) in H.
  destruct (valid_request_upper _ _ _ _ Hv) as [Hf Ht].
  destruct Hv as (qs & rf & rt & ra & Hq & Hqf & Hqt & _ & Ef & Et & _).
  rewrite Hq. cbv zeta. norm_default. rewrite Hqf, Hqt. norm_default.
  rewrite <- Ef, <- Et.
  destruct (String.eqb_spec f t) as [Heq|Hne].
  - rewrite identity_response_run in H. injection H as <- H.
    destruct (quantize a (-4)); [|discriminate].
    injection H as <-. simpl in Hb. injection Hb as <-. simpl.
    repeat split; auto.
  - rewrite conversion_response_run, Hf, Ht in H.
    destruct (resolve CANONICAL_BASE table f t) as [calls' [[info|]|e]] eqn:Er.
    + injection H as _ H.
      destruct (converted_body _ _ _ _ _ H)
        as (c' & -> & H1 & H2 & _ & _ & H5 & H6).
      simpl in Hb. injection Hb as ->. rewrite H1, H2, H5, H6.
      pose proof (resolve_not_identity _ _ _ _ _ _ Er).
      repeat split; try congruence; intros; try congruence; discriminate.
    + injection H as _ <-. discriminate.
    + discriminate.
Qed.

(** *** What the arithmetic of a conversion raises *)

Lemma nonneg_coeff_amount event f t a :
  valid_request event f t a -> nonneg_coeff a.
Proof.
  intros Hv.
  destruct (valid_request_amount _ _ _ _ Hv) as [(d & -> & Hd)| ->];
    [exact Hd|exact I].
Qed.

Lemma quantize4_exn x e :
  nonneg_coeff x -> quantize x (-4) = Raise e -> e = InvalidOperation.
Proof.
  destruct x as [d|s|[|]]; simpl; try congruence.
  intros Hc H.
  destruct (Z_lt_le_dec (dcoeff (_rescale d (-4))) (10 ^ prec)) as [Hlt|Hge].
  - change (quantize (Fin d) (-4) = Raise e) in H.
    rewrite quantize4_fits in H by assumption. discriminate.
  - change (quantize (Fin d) (-4) = Raise e) in H.
    rewrite quantize4_raises in H by assumption. congruence.
Qed.

Lemma fix_exn d e : _fix d = Raise e -> e = Overflow.
Proof.
  unfold _fix.
  repeat match goal with
  | |- context [if ?b then _ else _] => destruct b
  | |- context [let '(_, _) := ?p in _] => destruct p
  end; congruence.
Qed.

Lemma Decimal_mul_exn x y e :
  Decimal_mul x y = Raise e -> e = InvalidOperation \/ e = Overflow.
Proof.
  destruct x as [a|s|[|]], y as [b|s'|[|]]; simpl;
    try (intros [= <-]; auto; fail); try discriminate.
  - unfold fix_Decimal. destruct (_fix _) as [d|e'] eqn:E; [discriminate|].
    intros [= <-]. right. eapply fix_exn, E.
  - destruct (dcoeff a =? 0); [intros [= <-]; auto|discriminate].
  - destruct (dcoeff b =? 0); [intros [= <-]; auto|discriminate].
Qed.

Lemma Decimal_mul_nonneg x y z :
  nonneg_coeff x -> nonneg_coeff y -> Decimal_mul x y = Ok z -> nonneg_coeff z.
Proof.
  destruct x as [a|s|[|]], y as [b|s'|[|]]; simpl; intros Hx Hy H;
    try discriminate; try (injection H as <-; exact I).
  - destruct (Decimal_mul_finite a b z Hx Hy H) as (d & -> & Hd). exact Hd.
  - destruct (dcoeff a =? 0); [discriminate|]. injection H as <-. exact I.
  - destruct (dcoeff b =? 0); [discriminate|]. injection H as <-. exact I.
Qed.

Lemma converted_exn f t a info e :
  nonneg_coeff a -> nonneg_coeff (rate info) ->
  converted f t a info = Raise e -> e = InvalidOperation \/ e = Overflow.
Proof.
  intros Ha Hr. unfold converted, bind_res.
  destruct (Decimal_mul a (rate info)) as [x|e'] eqn:Em.
  2:{ intros [= <-]. eapply Decimal_mul_exn, Em. }
  destruct (quantize (rate info) (-4)) as [q|e'] eqn:Eq.
  2:{ intros [= <-]. left. eapply quantize4_exn; eassumption. }
  destruct (quantize x (-4)) as [qx|e'] eqn:Ex; [discriminate|].
  intros [= <-]. left. eapply quantize4_exn; [|exact Ex].
  exact (Decimal_mul_nonneg _ _ _ Ha Hr Em).
Qed.

Lemma resolve_nonneg canonical table f t calls info :
  resolve canonical table f t = (calls, Ok (Some info)) ->
  nonneg_coeff (rate info).
Proof.
  intros H. destruct (resolve_some _ _ _ _ _ _ H) as (r & -> & Hr & _).
  exact Hr.
Qed.

(** X10. An exception leaves the handler only for a request that
    passed the validation, and it is InvalidOperation or Overflow, never
    DivisionByZero: between equal codes it is InvalidOperation, with no
    call on the table; between different codes [compute_rate] had returned
    a rate, and the multiplication or a rounding raised. *)
Theorem raises_only_in_arithmetic (CANONICAL_BASE : string)
    (table : gmap string Item) (event : Event)
    (calls : list table_call) (e : pyexn) :
  lambda_handler CANONICAL_BASE event table = (calls, Raise e) ->
  (e = InvalidOperation \/ e = Overflow) /\
  exists from_cur to_cur amount,
    valid_request event from_cur to_cur amount /\
    ((from_cur = to_cur /\ calls = [] /\ e = InvalidOperation)
     \/
     (from_cur <> to_cur /\
      exists info,
        compute_rate CANONICAL_BASE from_cur to_cur table
        = (calls, Ok (Some info)))).
Proof.
  intros H.
  destruct (lambda_handler_cases CANONICAL_BASE table event)
    as [[v He]|(f & t & a & Hv)].
  { rewrite He in H. discriminate. }
  rewrite (lambda_handler_valid _ _ _ _ _ _ Hv) in H.
  destruct (valid_request_upper _ _ _ _ Hv) as [Hf Ht].
  pose proof (nonneg_coeff_amount _ _ _ _ Hv) as Ha.
  destruct (String.eqb_spec f t) as [Heq|Hne].
  - rewrite identity_response_run in H. injection H as <- H.
    destruct (quantize a (-4)) as [q|e'] eqn:Eq; [discriminate|].
    injection H as <-. pose proof (quantize4_exn _ _ Ha Eq) as ->.
    split; [auto|]. exists f, t, a. auto.
  - rewrite conversion_response_run, Hf, Ht in H.
    destruct (resolve CANONICAL_BASE table f t) as [calls' [[info|]|e']] eqn:Er.
    + injection H as <- H. split.
      * eapply converted_exn; [exact Ha| |exact H].
        eapply resolve_nonneg, Er.
      * exists f, t, a. split; [assumption|]. right. split; [assumption|].
        exists info. rewrite compute_rate_resolve, Hf, Ht. exact Er.
    + discriminate.
    + exfalso. destruct (resolve_total CANONICAL_BASE table f t) as [r Hr].
      rewrite Er in Hr. discriminate.
Qed.

(** X11. The amount Infinity passes the validation and is never
    converted: the handler raises InvalidOperation, or answers 404 when
    the codes differ and no rate is resolved. *)
Theorem infinite_amount_never_converted (CANONICAL_BASE : string)
    (table : gmap string Item) (event : Event) (from_cur to_cur : string) :
  valid_request event from_cur to_cur (Inf false) ->
  snd (lambda_handler CANONICAL_BASE event table) = Raise InvalidOperation
  \/
  (from_cur <> to_cur /\
   snd (lambda_handler CANONICAL_BASE event table)
   = Ok (_json 404 (not_found_body CANONICAL_BASE from_cur to_cur))).
Proof.
  intros Hv.
  rewrite (lambda_handler_valid _ _ _ _ _ _ Hv).
  destruct (valid_request_upper _ _ _ _ Hv) as [Hf Ht].
  destruct (String.eqb_spec from_cur to_cur) as [Heq|Hne].
  - left. rewrite identity_response_run. reflexivity.
  - rewrite conversion_response_run, Hf, Ht.
    destruct (resolve CANONICAL_BASE table from_cur to_cur)
      as [calls' [[info|]|e']] eqn:Er.
    + left. destruct (resolve_some _ _ _ _ _ _ Er) as (r & Hr & Hr0 & _).
      unfold converted, bind_res. rewrite Hr. simpl Decimal_mul.
      destruct (dcoeff r =? 0); [reflexivity|].
      destruct (quantize (Fin r) (-4)) as [q|e'] eqn:Eq; [reflexivity|].
      simpl. f_equal. eapply quantize4_exn; [|exact Eq]. exact Hr0.
    + right. split; [assumption|reflexivity].
    + exfalso.
      destruct (resolve_total CANONICAL_BASE table from_cur to_cur) as [r Hr].
      rewrite Er in Hr. discriminate.
Qed.

(** X12. An amount that parses as a NaN, quiet or signaling, is
    answered 400 "Amount must be a valid number" when both codes have
    three characters: the comparison [amount < 0] raises inside the [try]
    block. *)
Theorem nan_amount_rejected (CANONICAL_BASE : string)
    (table : gmap string Item) (event : Event) (qs : gmap string string)
    (raw_from raw_to raw_amount : string) (signaling : bool) :
  queryStringParameters event = Some qs ->
  qs !! "from"%string = Some raw_from ->
  qs !! "to"%string = Some raw_to ->
  qs !! "amount"%string = Some raw_amount ->
  len raw_from = 3 -> len raw_to = 3 ->
  Decimal_of_string raw_amount = Some (NaN signaling) ->
  lambda_handler CANONICAL_BASE event table
  = ([], Ok (validation_reply bad_amount)).
Proof.
  intros Hq Hf Ht Ha Hlf Hlt Hp.
  rewrite <- len_upper in Hlf, Hlt.
  unfold lambda_handler. rewrite Hq. norm_default. rewrite Hf, Ht, Ha.
  norm_default. rewrite (len_empty _ Hlf), (len_empty _ Hlt), Hlf, Hlt.
  simpl. unfold parse_amount, _to_dec.
  change (py_str (PyStr raw_amount)) with raw_amount. rewrite Hp.
  reflexivity.
Qed.

Lemma quantize4_large d :
  dcoeff d <> 0 -> 24 <= adjusted d ->
  quantize (Fin d) (-4) = Raise InvalidOperation.
Proof.
  intros Hc Ha. unfold quantize.
  change (negb ((Etiny <=? -4) && (-4 <=? Emax))) with false. cbv iota.
  destruct (Z.eqb_spec (dcoeff d) 0) as [E|_]; [contradiction|].
  destruct (Emax <? adjusted d); [reflexivity|].
  destruct (Z.ltb_spec prec (adjusted d - -4 + 1)) as [|Hn]; [reflexivity|].
  unfold prec in Hn. lia.
Qed.

(** X13. A stored direct rate of magnitude 10^24 or more (adjusted
    exponent at least 24, not zero) cannot be rounded to four places
    within the 28 digits of the context: every valid request for that pair
    raises, after the one read of the record of [from]. *)
Theorem large_rate_raises (CANONICAL_BASE : string)
    (table : gmap string Item) (event : Event)
    (from_cur to_cur : string) (amount : Decimal) (v : Number) :
  valid_request event from_cur to_cur amount ->
  from_cur <> to_cur ->
  rate_in (table !! from_cur) to_cur = Some v ->
  dcoeff v <> 0 -> 24 <= adjusted v ->
  exists e,
    lambda_handler CANONICAL_BASE event table = ([get_item from_cur], Raise e).
Proof.
  intros Hv Hne Hr Hc Ha.
  rewrite (lambda_handler_valid _ _ _ _ _ _ Hv).
  destruct (valid_request_upper _ _ _ _ Hv) as [Hf Ht].
  destruct (String.eqb_spec from_cur to_cur) as [|_]; [contradiction|].
  rewrite conversion_response_run, Hf, Ht.
  unfold resolve, direct_strategy. rewrite Hr.
  unfold converted, bind_res. cbn [rate].
  destruct (Decimal_mul amount (Fin v)) as [x|e]; [|eauto].
  rewrite quantize4_large by assumption. eauto.
Qed.

(** *** Sizes for which a conversion returns *)

Lemma ndigits_mul a b :
  0 < a -> 0 < b -> ndigits (a * b) <= ndigits a + ndigits b.
Proof.
  intros Ha Hb.
  pose proof (ndigits_bounds a Ha) as [_ H1].
  pose proof (ndigits_bounds b Hb) as [_ H2].
  pose proof (ndigits_pos a ltac:(lia)).
  pose proof (ndigits_pos b ltac:(lia)).
  apply ndigits_le; [lia|]. split; [nia|].
  rewrite Z.pow_add_r by lia. nia.
Qed.

Lemma div_pow10_lt c n k :
  0 <= c < 10 ^ n -> 0 <= k <= n -> c / 10 ^ k < 10 ^ (n - k).
Proof.
  intros Hc Hk. apply Z.div_lt_upper_bound; [apply pow10_gt0; lia|].
  rewrite <- Z.pow_add_r by lia. replace (k + (n - k)) with n by lia. lia.
Qed.

(** [_fix] on a value below [10^22]: nothing is raised, and the result
    is below [10^23]. *)
Lemma fix_small d :
  0 <= dcoeff d ->
  dcoeff d = 0 \/ ndigits (dcoeff d) + dexp d <= 22 ->
  exists d', _fix d = Ok d' /\ 0 <= dcoeff d' /\
    (dcoeff d' = 0 \/ ndigits (dcoeff d') + dexp d' <= 23).
Proof.
  intros Hc Hs. unfold _fix.
  destruct (Z.eqb_spec (dcoeff d) 0) as [E|E].
  { eexists. split; [reflexivity|]. simpl. split; [lia|auto]. }
  destruct Hs as [|Hs]; [contradiction|].
  set (n := ndigits (dcoeff d)) in *.
  pose proof (ndigits_bounds (dcoeff d) ltac:(lia)) as [_ Hhi]. fold n in Hhi.
  pose proof (ndigits_pos (dcoeff d) Hc) as Hn. fold n in Hn.
  unfold Etop, Etiny, Emax, Emin, prec.
  destruct (Z.ltb_spec (999999 - 28 + 1) (n + dexp d - 28)) as [|_]; [lia|].
  set (em := Z.max (n + dexp d - 28) (-999999 - 28 + 1)).
  assert (Hem : em <= -6) by (unfold em; lia).
  destruct (Z.ltb_spec (dexp d) em) as [Hlt|Hge].
  2:{ exists d. split; [reflexivity|]. split; [assumption|]. right. fold n. lia. }
  destruct (Z.ltb_spec (n + dexp d - em) 0) as [Hd|Hd].
  - change (round_half_even 1 1) with 0.
    change (10 ^ 28 <=? 0) with false. cbv iota.
    destruct (Z.ltb_spec (999999 - 28 + 1) em) as [|_]; [lia|].
    eexists. split; [reflexivity|]. simpl. split; [lia|auto].
  - set (k := em - dexp d). assert (Hk : 0 < k <= n) by (unfold k; lia).
    pose proof (round_half_even_bounds (dcoeff d) k Hc ltac:(lia)) as [Hlo Hup].
    pose proof (div_pow10_lt (dcoeff d) n k ltac:(lia) ltac:(lia)) as Hq.
    pose proof (Z.div_pos (dcoeff d) (10 ^ k) Hc (pow10_gt0 k ltac:(lia))) as Hq0.
    set (coeff := round_half_even (dcoeff d) k) in *.
    destruct (Z.leb_spec (10 ^ 28) coeff) as [Hbig|Hsmall].
    + destruct (Z.ltb_spec (999999 - 28 + 1) (em + 1)) as [|_]; [lia|].
      eexists. split; [reflexivity|]. simpl.
      assert (H28 : 28 <= n - k).
      { destruct (Z_le_gt_dec 28 (n - k)) as [|Hgt]; [assumption|exfalso].
        pose proof (pow10_mono (n - k) 27 ltac:(lia)).
        assert (10 ^ 27 < 10 ^ 28) by (vm_compute; reflexivity). lia. }
      assert (0 < coeff / 10).
      { apply Z.div_str_pos.
        assert (10 <= 10 ^ 28) by (vm_compute; discriminate). lia. }
      split; [lia|]. right.
      assert (coeff / 10 < 10 ^ (n - k)).
      { apply Z.div_lt_upper_bound; [lia|].
        pose proof (pow10_gt0 (n - k) ltac:(lia)). lia. }
      pose proof (ndigits_le (coeff / 10) (n - k) ltac:(lia) ltac:(lia)).
      unfold k in *. lia.
    + destruct (Z.ltb_spec (999999 - 28 + 1) em) as [|_]; [lia|].
      eexists. split; [reflexivity|]. simpl. split; [lia|].
      destruct (Z.eq_dec coeff 0) as [|Hnz]; [auto|right].
      assert (coeff < 10 ^ (n - k + 1)).
      { rewrite Z.pow_add_r, Z.pow_1_r by lia.
        pose proof (pow10_gt0 (n - k) ltac:(lia)). lia. }
      pose proof (ndigits_le coeff (n - k + 1) ltac:(lia) ltac:(lia)).
      unfold k in *. lia.
Qed.

(** A value below [10^23] rounded to four places has at most 28 digits. *)
Lemma quantize4_small d :
  0 <= dcoeff d ->
  dcoeff d = 0 \/ ndigits (dcoeff d) + dexp d <= 23 ->
  dcoeff (_rescale d (-4)) < 10 ^ prec.
Proof.
  intros Hc Hs. unfold _rescale, prec.
  assert (H27 : 10 ^ 27 < 10 ^ 28) by (vm_compute; reflexivity).
  assert (H0 : 0 < 10 ^ 27) by (vm_compute; reflexivity).
  destruct (Z.eqb_spec (dcoeff d) 0) as [E|E]; [simpl; lia|].
  destruct Hs as [|Hs]; [contradiction|].
  set (n := ndigits (dcoeff d)) in *.
  pose proof (ndigits_bounds (dcoeff d) ltac:(lia)) as [_ Hhi]. fold n in Hhi.
  pose proof (ndigits_pos (dcoeff d) Hc) as Hn. fold n in Hn.
  destruct (Z.leb_spec (-4) (dexp d)) as [Hle|Hlt]; simpl.
  - pose proof (pow10_gt0 (dexp d - -4) ltac:(lia)) as Hp.
    assert (dcoeff d * 10 ^ (dexp d - -4) < 10 ^ n * 10 ^ (dexp d - -4))
      by (apply Z.mul_lt_mono_pos_r; lia).
    rewrite <- Z.pow_add_r in H by lia.
    pose proof (pow10_mono (n + (dexp d - -4)) 27 ltac:(lia)). lia.
  - destruct (Z.ltb_spec (n + dexp d - -4) 0) as [Hd|Hd].
    + change (round_half_up 1 1) with 0. lia.
    + set (k := -4 - dexp d). assert (Hk : 0 < k <= n) by (unfold k; lia).
      pose proof (round_half_up_bounds (dcoeff d) k Hc ltac:(lia)) as [_ Hup].
      pose proof (div_pow10_lt (dcoeff d) n k ltac:(lia) ltac:(lia)) as Hq.
      pose proof (pow10_mono (n - k) 27 ltac:(unfold k; lia)). lia.
Qed.

(** X14. Sizes for which a conversion returns: when the resolved rate
    is below 10^23 (adjusted exponent at most 22) and the adjusted
    exponents of the amount and of the rate add up to at most 20, nothing
    raises and the handler answers 200 with the rate and the product
    [amount * rate], each rounded half up to four places, and the [asOf],
    [provenance] and [baseUsed] of the resolution. *)
Theorem moderate_sizes_convert (CANONICAL_BASE : string)
    (table : gmap string Item) (event : Event)
    (from_cur to_cur : string) (amount r : dec)
    (calls : list table_call) (info : RateInfo) :
  valid_request event from_cur to_cur (Fin amount) ->
  from_cur <> to_cur ->
  compute_rate CANONICAL_BASE from_cur to_cur table = (calls, Ok (Some info)) ->
  rate info = Fin r ->
  adjusted r <= 22 ->
  adjusted amount + adjusted r <= 20 ->
  exists result,
    Decimal_mul (Fin amount) (Fin r) = Ok (Fin result) /\
    lambda_handler CANONICAL_BASE event table
    = (calls,
       Ok (_json 200 (ConversionBody
             {| c_from := from_cur; c_to := to_cur;
                c_amount := float_of (Fin amount);
                c_rate := float_of (Fin (_rescale r (-4)));
                c_result := float_of (Fin (_rescale result (-4)));
                c_asOf := asOf info;
                c_provenance := provenance info;
                c_baseUsed := Some (baseUsed info) |}))).
Proof.
  intros Hv Hne Hcr Hr Har Hsum.
  rewrite (lambda_handler_valid _ _ _ _ _ _ Hv).
  destruct (valid_request_upper _ _ _ _ Hv) as [Hf Ht].
  destruct (String.eqb_spec from_cur to_cur) as [|_]; [contradiction|].
  rewrite conversion_response_run.
  rewrite compute_rate_resolve in Hcr. rewrite Hcr.
  rewrite Hf, Ht in Hcr.
  pose proof (nonneg_coeff_amount _ _ _ _ Hv) as Ha. simpl in Ha.
  pose proof (resolve_nonneg _ _ _ _ _ _ Hcr) as Hr0. rewrite Hr in Hr0.
  simpl in Hr0. unfold adjusted in Har, Hsum.
  destruct (fix_small (mkdec (xorb (dsign amount) (dsign r))
                         (dcoeff amount * dcoeff r) (dexp amount + dexp r)))
    as (x & Hx & Hx0 & Hxs).
  { simpl. nia. }
  { simpl. destruct (Z.eq_dec (dcoeff amount * dcoeff r) 0) as [|Hnz]; [auto|right].
    pose proof (ndigits_mul (dcoeff amount) (dcoeff r) ltac:(nia) ltac:(nia)).
    lia. }
  exists x. unfold converted, bind_res. rewrite Hr.
  unfold Decimal_mul, fix_Decimal. rewrite Hx.
  split; [reflexivity|].
  rewrite (quantize4_fits r), (quantize4_fits x);
    try assumption; try (apply quantize4_small; assumption).
  - reflexivity.
  - apply quantize4_small; [assumption|]. right. lia.
Qed.

(** X15. A zero amount, of either sign and of any exponent, converts
    to zero: in every 200 response to it [result] is a zero of exponent
    -4, whatever the rate. *)
Theorem zero_amount_converts_to_zero (CANONICAL_BASE : string)
    (table : gmap string Item) (event : Event)
    (calls : list table_call) (resp : Response)
    (from_cur to_cur : string) (amount : dec) (c : Conversion) :
  valid_request event from_cur to_cur (Fin amount) ->
  dcoeff amount = 0 ->
  lambda_handler CANONICAL_BASE event table = (calls, Ok resp) ->
  body resp = ConversionBody c ->
  exists sign, c_result c = float_of (Fin (mkdec sign 0 (-4))).
Proof.
  intros Hv Hz H Hb.
  rewrite (lambda_handler_valid _ _ _ _ _ _ Hv) in H.
  destruct (valid_request_upper _ _ _ _ Hv) as [Hf Ht].
  assert (Hq : forall s e q,
    quantize (Fin (mkdec s 0 e)) (-4) = Ok q -> q = Fin (mkdec s 0 (-4))).
  { intros s e q Hq. apply quantize4_value in Hq; [|simpl; lia].
    rewrite Hq. reflexivity. }
  destruct (from_cur =? to_cur)%string.
  - rewrite identity_response_run in H.
    destruct (quantize (Fin amount) (-4)) as [q|] eqn:Eq; [|discriminate].
    simpl in H. injection H as _ <-. simpl in Hb. injection Hb as <-. simpl.
    destruct amount as [s n e]. simpl in Hz. subst n.
    apply Hq in Eq as ->. eauto.
  - rewrite conversion_response_run, Hf, Ht in H.
    destruct (resolve CANONICAL_BASE table from_cur to_cur)
      as [calls' [[info|]|e]] eqn:Er.
    + destruct (resolve_some _ _ _ _ _ _ Er) as (r & Hr & _).
      unfold converted, bind_res in H. rewrite Hr in H.
      unfold Decimal_mul in H. rewrite Hz, Z.mul_0_l, fix_zero in H.
      cbn [fix_Decimal] in H.
      destruct (quantize (Fin r) (-4)); [|discriminate].
      destruct (quantize (Fin (mkdec _ 0 _)) (-4)) as [q|] eqn:Eq; [|discriminate].
      injection H as _ <-. simpl in Hb. injection Hb as <-. simpl.
      apply Hq in Eq as ->. eauto.
    + injection H as _ <-. discriminate.
    + discriminate.
Qed.

(* ===================================================================== *)
(** ** 16. The writer and the resolver                                   *)
(* ===================================================================== *)

(** X16. The writer and the resolver agree on the names: when the
    record of the key of the writer's call holds a rate under the name
    the call binds to [#cur], [compute_rate] on the [base] and [currency]
    of the writer's event (or their defaults USD and EUR) reads that
    record only and returns that rate, with provenance direct. *)
Theorem written_rate_is_read (CANONICAL_BASE stamp : string) (now : Z)
    (event : Writer.Event) (u : Writer.Update)
    (table : gmap string Item) (item : Item)
    (rates : gmap string Number) (v : Number) :
  Writer.update_request stamp now event = Ok u ->
  table !! Writer.upd_key u = Some item ->
  item_rates item = Some rates ->
  rates !! Writer.upd_cur u = Some v ->
  compute_rate CANONICAL_BASE
    (default "USD"%string (Writer.ev_base event))
    (default "EUR"%string (Writer.ev_currency event)) table
  = ([get_item (Writer.upd_key u)],
     Ok (Some {| rate := Fin v; asOf := item_asOf item;
                 provenance := direct; baseUsed := Writer.upd_key u |})).
Proof.
  unfold Writer.update_request, bind_res.
  destruct (_to_dec _) as [x|e]; [|discriminate].
  intros [= <-]. cbn [Writer.upd_key Writer.upd_cur]. intros Hi Hr Hv.
  rewrite compute_rate_resolve. unfold resolve, direct_strategy.
  rewrite (rate_in_lookup _ _ _ _ _ Hi Hr), Hv, Hi. reflexivity.
Qed.

(* ===================================================================== *)
(** ** 17. The further properties on the sample data                     *)
(* ===================================================================== *)

Import Cases.

Lemma to_dec_roundtrip_witness :
  _to_dec (PyDecimal (Fin (mkdec true 1050 (-2)))) = Ok (Fin (mkdec true 1050 (-2))).
Proof.
  apply (to_dec_roundtrip (mkdec true 1050 (-2))).
  - simpl. lia.
  - vm_compute. reflexivity.
Defined.

Lemma round4_returns_or_raises_witness :
  _round4 (Fin (mkdec false 1234565 (-5)))
  = Ok (float_of (Fin (mkdec false 123457 (-4))))
  /\
  _round4 (Fin (mkdec false 1 25)) = Raise InvalidOperation.
Proof.
  split.
  - apply (round4_returns_or_raises (mkdec false 1234565 (-5)) 123457).
    + simpl. lia.
    + unfold half_up_at. vm_compute. split; [reflexivity|discriminate].
  - apply (round4_returns_or_raises (mkdec false 1 25) (10 ^ 29)).
    + simpl. lia.
    + unfold half_up_at. vm_compute. split; [reflexivity|discriminate].
Defined.

Lemma round4_idempotent_witness :
  _round4 (Fin (mkdec false 123457 (-4)))
  = Ok (float_of (Fin (mkdec false 123457 (-4)))).
Proof.
  apply (round4_idempotent (mkdec false 1234565 (-5))).
  - simpl. lia.
  - vm_compute. reflexivity.
Defined.

Lemma compute_rate_reads_three_records_witness :
  compute_rate "USD" "usd" "eur" table_usd
  = compute_rate "USD" "usd" "eur" table_more.
Proof.
  apply compute_rate_reads_three_records; vm_compute; reflexivity.
Defined.

Lemma provenance_names_the_record_witness :
  asOf info_eur_gbp
  = item_get_asOf (table_pivot !! upper (baseUsed info_eur_gbp))
  /\ baseUsed info_eur_gbp = "USD"%string
  /\ [get_item "EUR"; get_item "USD"]%string
     = [get_item (upper "eur"); get_item (upper "USD")].
Proof.
  apply (provenance_names_the_record "USD" table_pivot "eur" "gbp"
           [get_item "EUR"; get_item "USD"]%string info_eur_gbp).
  vm_compute. reflexivity.
Defined.

Lemma response_shapes_witness :
  (statusCode (_json 404 (not_found_body "USD" "EUR" "GBP")) = 200 /\
   exists c, body (_json 404 (not_found_body "USD" "EUR" "GBP"))
             = ConversionBody c)
  \/
  (statusCode (_json 404 (not_found_body "USD" "EUR" "GBP")) = 400 /\
   [get_item "EUR"; get_item "USD"; get_item "GBP"]%string = [] /\
   exists e, _json 404 (not_found_body "USD" "EUR" "GBP") = validation_reply e)
  \/
  (statusCode (_json 404 (not_found_body "USD" "EUR" "GBP")) = 404 /\
   length [get_item "EUR"; get_item "USD"; get_item "GBP"]%string = 3%nat /\
   exists from_cur to_cur amount,
     valid_request (query "eur" "gbp" "100") from_cur to_cur amount /\
     from_cur <> to_cur /\
     _json 404 (not_found_body "USD" "EUR" "GBP")
     = _json 404 (not_found_body "USD" from_cur to_cur)).
Proof.
  apply (response_shapes "USD" ∅ (query "eur" "gbp" "100")).
  vm_compute. reflexivity.
Defined.

Lemma conversion_body_fields_witness :
  c_from conv_usd_eur = "USD"%string /\
  c_to conv_usd_eur = "EUR"%string /\
  (c_provenance conv_usd_eur = identity <->
   c_from conv_usd_eur = c_to conv_usd_eur) /\
  (c_baseUsed conv_usd_eur = None <->
   c_from conv_usd_eur = c_to conv_usd_eur) /\
  (c_from conv_usd_eur = c_to conv_usd_eur ->
   [get_item "USD"%string] = [] /\ c_rate conv_usd_eur = float_one /\
   c_asOf conv_usd_eur = None).
Proof.
  apply (conversion_body_fields "USD" table_usd (query "usd" "eur" "10")
           [get_item "USD"%string] (_json 200 (ConversionBody conv_usd_eur))
           conv_usd_eur).
  - vm_compute. reflexivity.
  - reflexivity.
Defined.

Lemma infinite_amount_never_converted_witness :
  snd (lambda_handler "USD" (query "USD" "EUR" "Infinity") table_usd)
  = Raise InvalidOperation
  \/
  ("USD"%string <> "EUR"%string /\
   snd (lambda_handler "USD" (query "USD" "EUR" "Infinity") table_usd)
   = Ok (_json 404 (not_found_body "USD" "USD" "EUR"))).
Proof.
  apply (infinite_amount_never_converted "USD" table_usd
           (query "USD" "EUR" "Infinity") "USD" "EUR").
  apply (query_valid "USD" "EUR" "Infinity"); reflexivity.
Defined.

Lemma nan_amount_rejected_witness :
  lambda_handler "USD" (query "USD" "EUR" "nan") table_usd
  = ([], Ok (validation_reply bad_amount)).
Proof.
  apply (nan_amount_rejected "USD" table_usd (query "USD" "EUR" "nan")
           (list_to_map [("from", "USD"); ("to", "EUR"); ("amount", "nan")]%string)
           "USD" "EUR" "nan" false); reflexivity.
Defined.

Lemma large_rate_raises_witness :
  exists e,
    lambda_handler "USD" (query "USD" "XAU" "1") table_big
    = ([get_item "USD"%string], Raise e).
Proof.
  apply (large_rate_raises "USD" table_big (query "USD" "XAU" "1")
           "USD" "XAU" (Fin (mkdec false 1 0)) n_1e24).
  - apply (query_valid "USD" "XAU" "1"); reflexivity.
  - discriminate.
  - reflexivity.
  - simpl. lia.
  - vm_compute. discriminate.
Defined.

Lemma moderate_sizes_convert_witness :
  exists result,
    Decimal_mul (Fin (mkdec false 10 0)) (Fin n_0_92) = Ok (Fin result) /\
    lambda_handler "USD" (query "USD" "EUR" "10") table_usd
    = ([get_item "USD"%string],
       Ok (_json 200 (ConversionBody
             {| c_from := "USD"; c_to := "EUR";
                c_amount := float_of (Fin (mkdec false 10 0));
                c_rate := float_of (Fin (_rescale n_0_92 (-4)));
                c_result := float_of (Fin (_rescale result (-4)));
                c_asOf := asOf info_usd_eur;
                c_provenance := provenance info_usd_eur;
                c_baseUsed := Some (baseUsed info_usd_eur) |}))).
Proof.
  apply (moderate_sizes_convert "USD" table_usd (query "USD" "EUR" "10")
           "USD" "EUR" (mkdec false 10 0) n_0_92
           [get_item "USD"%string] info_usd_eur).
  - apply (query_valid "USD" "EUR" "10"); reflexivity.
  - discriminate.
  - vm_compute. reflexivity.
  - reflexivity.
  - vm_compute. discriminate.
  - vm_compute. discriminate.
Defined.

Lemma raises_only_in_arithmetic_witness :
  (InvalidOperation = InvalidOperation \/ InvalidOperation = Overflow) /\
  exists from_cur to_cur amount,
    valid_request (query "USD" "USD" "1E+25") from_cur to_cur amount /\
    ((from_cur = to_cur /\ @nil table_call = [] /\
      InvalidOperation = InvalidOperation)
     \/
     (from_cur <> to_cur /\
      exists info,
        compute_rate "USD" from_cur to_cur table_usd = ([], Ok (Some info)))).
Proof.
  apply (raises_only_in_arithmetic "USD" table_usd (query "USD" "USD" "1E+25")).
  vm_compute. reflexivity.
Defined.

Lemma written_rate_is_read_witness :
  compute_rate "USD" "usd" "EUR" table_usd
  = ([get_item "USD"%string],
     Ok (Some {| rate := Fin n_0_92; asOf := stamp;
                 provenance := direct; baseUsed := "USD" |})).
Proof.
  apply (written_rate_is_read "USD" "2024-05-01T00:00:00Z" 1714521600
           write_usd update_usd table_usd item_usd rates_usd n_0_92).
  - vm_compute. reflexivity.
  - reflexivity.
  - reflexivity.
  - reflexivity.
Defined.

Lemma zero_amount_converts_to_zero_witness :
  exists sign, c_result conv_zero = float_of (Fin (mkdec sign 0 (-4))).
Proof.
  apply (zero_amount_converts_to_zero "USD" table_usd (query "USD" "EUR" "-0")
           [get_item "USD"%string] (_json 200 (ConversionBody conv_zero))
           "USD" "EUR" (mkdec true 0 0) conv_zero).
  - apply (query_valid "USD" "EUR" "-0"); reflexivity.
  - reflexivity.
  - vm_compute. reflexivity.
  - reflexivity.
Defined.
